(** * asyncy-psql: the query-compilation core of [app.py]

    A shallow embedding of the pure part of [app.py]: the identifier
    check [check_valid_sql_ident], the filter compiler [QueryBuilder],
    the insert compiler [InsertBuilder] and the SQL text assembled by the
    [select], [update] and [delete] handlers.  The HTTP layer and the
    database connection are left out.

    Conventions.
    - A Python [str] is a [string]; a character is a code point in
      U+0000..U+00FF, and [str.isalnum] is tabulated on that range.
    - A parsed JSON body is a [value]; a [dict] is an association list in
      insertion order.
    - A Python exception is an [exn] carried by [result]; the two mutable
      builder objects are records threaded through a state-and-error
      monad. *)

From Stdlib Require Import List String Ascii Bool Arith ZArith Lia.
From Stdlib Require Import Sorted Permutation.
Import ListNotations.
Open Scope string_scope.

Set Implicit Arguments.

(** ** Values and exceptions *)

Unset Elimination Schemes.

Inductive value : Type :=
| VNone  : value
| VBool  : bool -> value
| VInt   : Z -> value
| VFloat : string -> value            (* a float, carried by its literal *)
| VStr   : string -> value
| VList  : list value -> value
| VDict  : list (string * value) -> value.

Set Elimination Schemes.

Inductive exn : Type :=
| AssertionError
| AttributeError
| TypeError
| IndexError
| KeyError
| RecursionError.

Inductive result (A : Type) : Type :=
| Ok  : A -> result A
| Err : exn -> result A.

Arguments Ok {A} _.
Arguments Err {A} _.

Definition isinstance_dict (v : value) : bool :=
  match v with VDict _ => true | _ => false end.

(** [len(v)]: defined on str, list and dict, a [TypeError] elsewhere. *)
Definition len (v : value) : result nat :=
  match v with
  | VStr s   => Ok (String.length s)
  | VList l  => Ok (List.length l)
  | VDict d  => Ok (List.length d)
  | _        => Err TypeError
  end.

(** [v.items()]: only a dict has the attribute. *)
Definition items (v : value) : result (list (string * value)) :=
  match v with
  | VDict d => Ok d
  | _       => Err AttributeError
  end.

(** The double quote character and [f'"{x}"']. *)
Definition dq : string := String (ascii_of_nat 34) EmptyString.

Definition quoted (x : string) : string := dq ++ x ++ dq.

(** [sep.join(l)] is [String.concat sep l]. *)
Definition join (sep : string) (l : list string) : string :=
  String.concat sep l.

(** ** A state-and-error monad for the builder objects *)

Definition M (S A : Type) : Type := S -> result (A * S).

Definition ret {S A} (a : A) : M S A := fun s => Ok (a, s).

Definition raise {S A} (e : exn) : M S A := fun _ => Err e.

Definition bind {S A B} (m : M S A) (f : A -> M S B) : M S B :=
  fun s => match m s with
           | Ok (a, s') => f a s'
           | Err e => Err e
           end.

Definition get {S} : M S S := fun s => Ok (s, s).

Definition modify {S} (f : S -> S) : M S unit := fun s => Ok (tt, f s).

Notation "x <- m ;; k" := (bind m (fun x => k))
  (at level 61, m at next level, right associativity).
Notation "m ;;; k" := (bind m (fun _ => k))
  (at level 61, right associativity).

(** ** QueryBuilder *)

Module QueryBuilder.

Record t : Type := mk {
  params : list value;
  current_column : option string
}.

(** [__init__] *)
Definition init : t := {| params := []; current_column := None |}.

Definition operators : list (string * string) :=
  [ ("$gt", ">"); ("$gte", ">="); ("$lt", "<"); ("$lte", "<="); ("$eq", "=") ].

Fixpoint lookup (k : string) (d : list (string * string)) : option string :=
  match d with
  | [] => None
  | (k', v) :: d' => if String.eqb k k' then Some v else lookup k d'
  end.

(** [k in QueryBuilder.operators] *)
Definition is_operator (k : string) : bool :=
  match lookup k operators with Some _ => true | None => false end.

Definition params_append (v : value) : M t unit :=
  modify (fun self => {| params := (params self ++ [v])%list;
                         current_column := current_column self |}).

Definition set_current_column (c : option string) : M t unit :=
  modify (fun self => {| params := params self; current_column := c |}).

(** [op(self, op, v)] *)
Definition op (k : string) (v : value) : M t string :=
  self <- get ;;
  match current_column self with
  | None => raise AssertionError
  | Some col =>
      params_append v ;;;
      match lookup k operators with
      | None => raise KeyError
      | Some sym => ret (quoted col ++ " " ++ sym ++ " %s")
      end
  end.

(** The body of [build], over the function [build] that its recursive
    calls go to. *)
Section body.

Variable build : value -> M t (list string).

(** [group(self, value, action)] *)
Definition group_with (v : value) (action : string) : M t string :=
  query <- build v ;;
  ret (join (" " ++ action ++ " ") query).

(** One turn of the loop [for k, v in where.items()]: the clause that
    it appends to [query]. *)
Definition clause (k : string) (v : value) : M t string :=
  if String.eqb k "$and" then
    group_with v "AND"
  else if String.eqb k "$or" then
    group_with v "OR"
  else if is_operator k then
    op k v
  else if isinstance_dict v then
    self <- get ;;
    match current_column self with
    | Some _ => raise AssertionError
    | None =>
        let old_current_column := current_column self in
        set_current_column (Some k) ;;;
        g <- group_with v "AND" ;;
        set_current_column old_current_column ;;;
        ret g
    end
  else
    params_append v ;;;
    ret (k ++ "=%s").

Fixpoint loop (d : list (string * value)) (query : list string)
  : M t (list string) :=
  match d with
  | [] => ret query
  | (k, v) :: d' =>
      c <- clause k v ;;
      loop d' (query ++ [c])%list
  end.

End body.

(** [build(self, where)]: [where.items()] exists on a dict only. *)
Fixpoint build (where_ : value) : M t (list string) :=
  match where_ with
  | VDict d => loop build d []
  | _ => raise AttributeError
  end.

Definition group (v : value) (action : string) : M t string :=
  group_with build v action.

(** [build_query(where)], returning the pair [(query, params)]. *)
Definition build_query (where_ : value) : result (string * list value) :=
  match where_ with
  | VNone => Ok ("", [])
  | _ =>
      match len where_ with
      | Err e => Err e
      | Ok 0 => Ok ("", [])
      | Ok (S _) =>
          match group where_ "AND" init with
          | Ok (query, builder) => Ok (query, params builder)
          | Err e => Err e
          end
      end
  end.

End QueryBuilder.

(** ** check_valid_sql_ident *)

(** [str.isalnum] on one character: the code points of U+0000..U+00FF that
    are letters, decimals, digits or numeric (0-9, A-Z, a-z, and in the
    upper half the ordinal indicators, superscript digits, micro sign,
    vulgar fractions and the accented letters). *)
Definition alnum_ranges : list (nat * nat) :=
  [ (48, 57); (65, 90); (97, 122); (170, 170); (178, 179); (181, 181);
    (185, 186); (188, 190); (192, 214); (216, 246); (248, 255) ]%nat.

Definition isalnum (c : ascii) : bool :=
  let n := nat_of_ascii c in
  existsb (fun r => Nat.leb (fst r) n && Nat.leb n (snd r)) alnum_ranges.

(** [c in s] for a one-character [c]. *)
Fixpoint char_in (c : ascii) (s : string) : bool :=
  match s with
  | EmptyString => false
  | String c' s' => Ascii.eqb c c' || char_in c s'
  end.

(** [ident[i]] *)
Definition str_index (s : string) (i : nat) : result ascii :=
  match String.get i s with
  | Some c => Ok c
  | None => Err IndexError
  end.

(** The loop [for c in ident], which returns [False] at the first
    character that is neither alphanumeric nor one of [_$]. *)
Fixpoint ident_chars (s : string) : bool :=
  match s with
  | EmptyString => true
  | String c s' =>
      if negb (isalnum c || char_in c "_$") then false else ident_chars s'
  end.

Definition check_valid_sql_ident (ident : value) : result bool :=
  match ident with
  | VStr s =>
      if Nat.eqb (String.length s) 0 then Ok false
      else
        match str_index s 0 with
        | Err e => Err e
        | Ok c0 =>
            if negb (isalnum c0) then Ok false
            else Ok (ident_chars s)
        end
  | _ => Ok false
  end.

(** The str [cafe] with its last letter accented: U+00E9, e with acute
    accent. *)
Definition cafe : string := "caf" ++ String (ascii_of_nat 233) EmptyString.

(** ** sorted(d.items()) *)

(** Tuples are ordered by their first component, the key, by code points;
    the keys of a dict are distinct, so the values are never compared.
    The sort is by insertion, and stable. *)
Fixpoint insert_item (x : string * value) (l : list (string * value))
  : list (string * value) :=
  match l with
  | [] => [x]
  | y :: l' =>
      if String.leb (fst x) (fst y) then x :: y :: l'
      else y :: insert_item x l'
  end.

Definition sorted (l : list (string * value)) : list (string * value) :=
  fold_right insert_item [] l.

(** The order of [sorted] on items: by key. *)
Definition key_le (x y : string * value) : Prop :=
  String.leb (fst x) (fst y) = true.

(** ** InsertBuilder *)

Module InsertBuilder.

Record t : Type := mk {
  params : list value;
  value_strs : list string;
  first_item : option (list (string * value))
}.

(** [__init__] *)
Definition init : t :=
  {| params := []; value_strs := []; first_item := None |}.

(** [add(self, values)] *)
Definition add (values : value) : M t unit :=
  match items values with
  | Err e => raise e
  | Ok d =>
      let its := sorted d in
      modify (fun self =>
        {| params := (params self ++ map snd its)%list;
           value_strs :=
             (value_strs self
                ++ [("(" ++ join "," (map (fun _ => "%s") d) ++ ")")%string])%list;
           first_item :=
             match first_item self with
             | None => Some its
             | Some f => Some f
             end |})
  end.

(** [names(self)]: iterating over [None] is a [TypeError]. *)
Definition names (self : t) : result string :=
  match first_item self with
  | None => Err TypeError
  | Some f => Ok (join "," (map (fun x => quoted (fst x)) f))
  end.

(** [values(self)] *)
Definition values (self : t) : string := join "," (value_strs self).

(** [for e in values: builder.add(e)] *)
Fixpoint add_all (rows : list value) : M t unit :=
  match rows with
  | [] => ret tt
  | e :: rows' => add e ;;; add_all rows'
  end.

End InsertBuilder.

(** A parenthesised tuple of [n] placeholders. *)
Definition placeholder_tuple (n : nat) : string :=
  "(" ++ join "," (repeat "%s" n) ++ ")".

(** ** The SQL text of the handlers

    Each handler is modelled up to the call of [cur.execute]: it returns
    the SQL text and the parameter list handed to the driver.  [table] is
    the request's table name, a str; an absent request field is the
    default of its [req.get]. *)

(** [insert()] *)
Definition insert (table : string) (values : value)
  : result (string * list value) :=
  let filled :=
    match values with
    | VList rows => InsertBuilder.add_all rows InsertBuilder.init
    | _ => InsertBuilder.add values InsertBuilder.init
    end in
  match filled with
  | Err e => Err e
  | Ok (_, builder) =>
      match InsertBuilder.names builder with
      | Err e => Err e
      | Ok names =>
          Ok ("INSERT INTO " ++ table ++ " (" ++ names ++ ") "
                ++ "VALUES " ++ InsertBuilder.values builder ++ " RETURNING *",
              InsertBuilder.params builder)
      end
  end.

(** [delete()] *)
Definition delete (table : string) (where_ : value)
  : result (string * list value) :=
  match QueryBuilder.build_query where_ with
  | Err e => Err e
  | Ok (query, params) =>
      let where_str :=
        if Nat.ltb 0 (List.length params) then "WHERE (" ++ query ++ ") "
        else "" in
      Ok ("DELETE FROM " ++ table ++ " " ++ where_str ++ " RETURNING *", params)
  end.

(** The validation loop of [select()] over [columns], then the quoting. *)
Fixpoint select_columns (columns : list value) : result (list string) :=
  match columns with
  | [] => Ok []
  | column :: columns' =>
      match check_valid_sql_ident column with
      | Err e => Err e
      | Ok false => Err AssertionError
      | Ok true =>
          match column, select_columns columns' with
          | VStr col, Ok cols => Ok (quoted col :: cols)
          | VStr _, Err e => Err e
          | _, _ => Err TypeError
          end
      end
  end.

(** The [columns] part of [select()]. *)
Definition select_columns_str (columns : value) : result string :=
  match columns with
  | VNone => Ok "*"
  | VList cols =>
      match select_columns cols with
      | Ok l => Ok (join "," l)
      | Err e => Err e
      end
  | _ => Err AssertionError
  end.

(** [select()] *)
Definition select (table : string) (where_ columns : value)
  : result (string * list value) :=
  match select_columns_str columns with
  | Err e => Err e
  | Ok cs =>
      let sql := "SELECT " ++ cs ++ " FROM " ++ table in
      match QueryBuilder.build_query where_ with
      | Err e => Err e
      | Ok (query, params) =>
          Ok (if Nat.ltb 0 (List.length params)
              then sql ++ " WHERE (" ++ query ++ ")"
              else sql,
              params)
      end
  end.

(** [update()] *)
Definition update (table : string) (where_ values : value)
  : result (string * list value) :=
  match items values with
  | Err e => Err e
  | Ok d =>
      let vals := sorted d in
      let update_params := map snd vals in
      let update_str := join "," (map (fun x => quoted (fst x) ++ " = %s") vals) in
      match QueryBuilder.build_query where_ with
      | Err e => Err e
      | Ok (query, params) =>
          let where_str :=
            if Nat.ltb 0 (String.length query) then "WHERE (" ++ query ++ ") "
            else "" in
          Ok ("UPDATE " ++ table ++ " SET " ++ update_str ++ " " ++ where_str
                ++ "RETURNING *",
              (update_params ++ params)%list)
      end
  end.

(** ** Placeholders and their substitution

    Positional binding: the SQL text is read from the left and each [%s]
    is replaced by the next parameter. *)

(** [sql.count("%s")] *)
Fixpoint count_placeholders (s : string) : nat :=
  match s with
  | EmptyString => 0
  | String c r =>
      if Ascii.eqb c "%" then
        match r with
        | String d r' =>
            if Ascii.eqb d "s" then S (count_placeholders r')
            else count_placeholders r
        | EmptyString => 0
        end
      else count_placeholders r
  end.

Definition on_fst {A B C} (f : A -> C) (x : option (A * B)) : option (C * B) :=
  match x with
  | Some (a, b) => Some (f a, b)
  | None => None
  end.

(** The text with its placeholders filled from [ps], and the parameters
    left over; [None] when the parameters run out.  [render] writes a
    value as a SQL literal. *)
Fixpoint substitute (render : value -> string) (s : string) (ps : list value)
  : option (string * list value) :=
  match s with
  | EmptyString => Some (EmptyString, ps)
  | String c r =>
      if Ascii.eqb c "%" then
        match r with
        | String d r' =>
            if Ascii.eqb d "s" then
              match ps with
              | [] => None
              | p :: ps' => on_fst (append (render p)) (substitute render r' ps')
              end
            else on_fst (String c) (substitute render r ps)
        | EmptyString => Some (String c EmptyString, ps)
        end
      else on_fst (String c) (substitute render r ps)
  end.

(** [substitute] over a list of clauses, from left to right. *)
Fixpoint substitute_all (render : value -> string) (l : list string)
         (ps : list value) : option (list string * list value) :=
  match l with
  | [] => Some ([], ps)
  | f :: l' =>
      match substitute render f ps with
      | None => None
      | Some (f', ps') => on_fst (cons f') (substitute_all render l' ps')
      end
  end.

Definition starts_with_s (s : string) : bool :=
  match s with
  | String c _ => Ascii.eqb c "s"
  | EmptyString => false
  end.

Definition no_placeholder (k : string) : bool :=
  Nat.eqb (count_placeholders k) 0.

(** The keys that [build] writes into the SQL text (the column names)
    hold no [%s]. *)
Fixpoint keys_clean (w : value) : bool :=
  match w with
  | VDict d =>
      forallb (fun kv : string * value =>
        let (k, v) := kv in
        if String.eqb k "$and" then keys_clean v
        else if String.eqb k "$or" then keys_clean v
        else if QueryBuilder.is_operator k then true
        else if isinstance_dict v then no_placeholder k && keys_clean v
        else no_placeholder k) d
  | _ => true
  end.

(** The column context holds no [%s]. *)
Definition column_clean (col : option string) : Prop :=
  match col with
  | Some c => no_placeholder c = true
  | None => True
  end.

Definition symbol (k : string) : string :=
  match QueryBuilder.lookup k QueryBuilder.operators with
  | Some sym => sym
  | None => ""
  end.

Definition column_name (col : option string) : string :=
  match col with Some c => c | None => "" end.

(** The clauses of a filter with every value written in place: what the
    filter means, with the column context passed down as an argument. *)
Fixpoint literal (render : value -> string) (col : option string) (w : value)
  : list string :=
  match w with
  | VDict d =>
      map (fun kv : string * value =>
        let (k, v) := kv in
        if String.eqb k "$and" then join " AND " (literal render col v)
        else if String.eqb k "$or" then join " OR " (literal render col v)
        else if QueryBuilder.is_operator k then
          quoted (column_name col) ++ " " ++ symbol k ++ " " ++ render v
        else if isinstance_dict v then
          join " AND " (literal render (Some k) v)
        else k ++ "=" ++ render v) d
  | _ => []
  end.

Definition literal_query (render : value -> string) (w : value) : string :=
  join " AND " (literal render None w).

(** ** The two input-contract faults of a filter *)

(** A comparison operator met with no column context, or a column key
    (neither [$and]/[$or] nor an operator) with an object value met inside
    a column context. *)
Fixpoint violates (col : option string) (w : value) : bool :=
  match w with
  | VDict d =>
      existsb (fun kv : string * value =>
        let (k, v) := kv in
        if String.eqb k "$and" then violates col v
        else if String.eqb k "$or" then violates col v
        else if QueryBuilder.is_operator k then
          match col with None => true | Some _ => false end
        else if isinstance_dict v then
          match col with Some _ => true | None => violates (Some k) v end
        else false) d
  | _ => false
  end.

(** The filter is an object, and so is the value of every [$and] and
    [$or] key in it. *)
Fixpoint grouped (w : value) : bool :=
  match w with
  | VDict d =>
      forallb (fun kv : string * value =>
        let (k, v) := kv in
        if String.eqb k "$and" then grouped v
        else if String.eqb k "$or" then grouped v
        else if QueryBuilder.is_operator k then true
        else if isinstance_dict v then grouped v
        else true) d
  | _ => false
  end.

(** ** Induction on values *)

Section value_induction.

Variable P : value -> Prop.
Hypothesis HNone  : P VNone.
Hypothesis HBool  : forall b, P (VBool b).
Hypothesis HInt   : forall z, P (VInt z).
Hypothesis HFloat : forall s, P (VFloat s).
Hypothesis HStr   : forall s, P (VStr s).
Hypothesis HList  : forall l, P (VList l).
Hypothesis HDict  : forall d, Forall (fun kv => P (snd kv)) d -> P (VDict d).

Fixpoint value_ind (v : value) : P v :=
  match v with
  | VNone => HNone
  | VBool b => HBool b
  | VInt z => HInt z
  | VFloat s => HFloat s
  | VStr s => HStr s
  | VList l => HList l
  | VDict d =>
      HDict
        ((fix entries (d : list (string * value))
            : Forall (fun kv => P (snd kv)) d :=
            match d with
            | [] => @Forall_nil _ _
            | kv :: d' =>
                @Forall_cons _ _ kv d' (value_ind (snd kv)) (entries d')
            end) d)
  end.

End value_induction.

(** ** The table handlers *)

(** [tables_drop()]: the SQL text handed to [cur.execute]. *)
Definition tables_drop (table : string) : string := "DROP TABLE " ++ table.

(** [tables_create()], over [str], Python's conversion of a value to its
    text (the identity on a str). *)
Section tables.

Variable str : value -> string.

Definition tables_create (table : string) (columns : value) : result string :=
  match items columns with
  | Err e => Err e
  | Ok d =>
      let columns_params :=
        map (fun kv => fst kv ++ " " ++ str (snd kv)) (sorted d) in
      Ok ("CREATE TABLE " ++ table ++ " (" ++ join "," columns_params ++ ")")
  end.

End tables.

(** ** The filter compiler as a pure function

    The clauses of [build] with the column context passed as an argument
    and no builder object. *)

Section pure_body.

Variable compile : option string -> value -> result (list string).

Definition joined (sep : string) (r : result (list string)) : result string :=
  match r with
  | Ok q => Ok (join sep q)
  | Err e => Err e
  end.

Definition compile_clause (col : option string) (k : string) (v : value)
  : result string :=
  if String.eqb k "$and" then joined " AND " (compile col v)
  else if String.eqb k "$or" then joined " OR " (compile col v)
  else if QueryBuilder.is_operator k then
    match col with
    | None => Err AssertionError
    | Some c => Ok (quoted c ++ " " ++ symbol k ++ " %s")
    end
  else if isinstance_dict v then
    match col with
    | Some _ => Err AssertionError
    | None => joined " AND " (compile (Some k) v)
    end
  else Ok (k ++ "=%s").

Fixpoint compile_entries (col : option string) (d : list (string * value))
  : result (list string) :=
  match d with
  | [] => Ok []
  | (k, v) :: d' =>
      match compile_clause col k v with
      | Err e => Err e
      | Ok c =>
          match compile_entries col d' with
          | Err e => Err e
          | Ok cs => Ok (c :: cs)
          end
      end
  end.

End pure_body.

Fixpoint compile (col : option string) (w : value) : result (list string) :=
  match w with
  | VDict d => compile_entries compile col d
  | _ => Err AttributeError
  end.

(** The values that a filter binds, in the order of its entries: the value
    of every comparison operator and of every implicit equality. *)
Fixpoint bound (w : value) : list value :=
  match w with
  | VDict d =>
      flat_map (fun kv : string * value =>
        let (k, v) := kv in
        if String.eqb k "$and" then bound v
        else if String.eqb k "$or" then bound v
        else if QueryBuilder.is_operator k then [v]
        else if isinstance_dict v then bound v
        else [v]) d
  | _ => []
  end.

(** The filter with every bound value replaced by [x]. *)
Fixpoint rebind (x : value) (w : value) : value :=
  match w with
  | VDict d =>
      VDict (map (fun kv : string * value =>
        let (k, v) := kv in
        (k, if String.eqb k "$and" then rebind x v
            else if String.eqb k "$or" then rebind x v
            else if QueryBuilder.is_operator k then x
            else if isinstance_dict v then rebind x v
            else x)) d)
  | _ => w
  end.

(** The characters of a str. *)
Definition chars (s : string) : list ascii := list_ascii_of_string s.

(** The characters that an identifier may hold. *)
Definition ident_char (c : ascii) : bool := isalnum c || char_in c "_$".

(** ** QueryBuilder on a bounded call stack

    [group] and [build] call each other once for every level of nesting
    of the filter, with no bound on the depth, and the interpreter raises
    [RecursionError] when its call stack is full.  [frames] is the number
    of calls that the stack still takes: a call of a function of [app.py]
    ([__init__], [group], [build], [op]) takes one frame for as long as it
    runs, and with no frame left it raises.  [QueryBuilder.build] above is
    the builder on a stack that is never full. *)

Module Stack.

(** A call with [frames] frames left; its body runs with one less. *)
Definition call {A} (frames : nat) (body : nat -> M QueryBuilder.t A)
  : M QueryBuilder.t A :=
  match frames with
  | 0 => raise RecursionError
  | S frames' => body frames'
  end.

(** [self.op(k, v)] *)
Definition op (frames : nat) (k : string) (v : value)
  : M QueryBuilder.t string :=
  call frames (fun _ => QueryBuilder.op k v).

Section body.

(** The body of [build], by the frames left and the filter. *)
Variable build : nat -> value -> M QueryBuilder.t (list string).

(** [self.group(v, action)], which calls [self.build(v)]. *)
Definition group_with (frames : nat) (v : value) (action : string)
  : M QueryBuilder.t string :=
  call frames (fun frames1 =>
    query <- call frames1 (fun frames2 => build frames2 v) ;;
    ret (join (" " ++ action ++ " ") query)).

Definition clause (frames : nat) (k : string) (v : value)
  : M QueryBuilder.t string :=
  if String.eqb k "$and" then
    group_with frames v "AND"
  else if String.eqb k "$or" then
    group_with frames v "OR"
  else if QueryBuilder.is_operator k then
    op frames k v
  else if isinstance_dict v then
    self <- get ;;
    match QueryBuilder.current_column self with
    | Some _ => raise AssertionError
    | None =>
        let old_current_column := QueryBuilder.current_column self in
        QueryBuilder.set_current_column (Some k) ;;;
        g <- group_with frames v "AND" ;;
        QueryBuilder.set_current_column old_current_column ;;;
        ret g
    end
  else
    QueryBuilder.params_append v ;;;
    ret (k ++ "=%s").

Fixpoint loop (frames : nat) (d : list (string * value))
         (query : list string) : M QueryBuilder.t (list string) :=
  match d with
  | [] => ret query
  | (k, v) :: d' =>
      c <- clause frames k v ;;
      loop frames d' (query ++ [c])%list
  end.

End body.

(** The body of [build(self, where)] with [frames] frames left. *)
Fixpoint build (frames : nat) (where_ : value) {struct where_}
  : M QueryBuilder.t (list string) :=
  match where_ with
  | VDict d => loop build frames d []
  | _ => raise AttributeError
  end.

Definition group (frames : nat) (v : value) (action : string)
  : M QueryBuilder.t string :=
  group_with build frames v action.

(** The body of [build_query(where)] with [frames] frames left:
    [QueryBuilder()] calls [__init__], then [builder.group] is called. *)
Definition build_query (frames : nat) (where_ : value)
  : result (string * list value) :=
  match where_ with
  | VNone => Ok ("", [])
  | _ =>
      match len where_ with
      | Err e => Err e
      | Ok 0 => Ok ("", [])
      | Ok (S _) =>
          match (call frames (fun _ => ret tt) ;;;
                 group frames where_ "AND") QueryBuilder.init with
          | Ok (query, builder) => Ok (query, QueryBuilder.params builder)
          | Err e => Err e
          end
      end
  end.

End Stack.

(** The frames that the whole of a filter takes below the body of
    [build]: one for an operator, two (for [group] and [build]) and those
    of the value for a group or a column scope. *)
Fixpoint height (w : value) : nat :=
  match w with
  | VDict d =>
      list_max (map (fun kv : string * value =>
        let (k, v) := kv in
        if String.eqb k "$and" then 2 + height v
        else if String.eqb k "$or" then 2 + height v
        else if QueryBuilder.is_operator k then 1
        else if isinstance_dict v then 2 + height v
        else 0) d)
  | _ => 0
  end.

(** The run of [build] on a filter object, started in the builder state
    [s] with [frames] frames left, meets an assertion: it has compiled the
    entries [pre] before an entry [(k, v)], and then
    - [k] is a comparison operator, no column is current, and [op] is
      called; or
    - [k] is a column key ([$and], [$or] and the operators apart), [v] is
      an object, and a column is current; or
    - [k] opens a group or a column scope, and the run of [build] on [v]
      inside it meets an assertion. *)
Inductive encounters : nat -> QueryBuilder.t -> value -> Prop :=
| operator_without_column :
    forall frames s pre k v post q s1,
      Stack.build frames (VDict pre) s = Ok (q, s1) ->
      QueryBuilder.is_operator k = true ->
      QueryBuilder.current_column s1 = None ->
      1 <= frames ->
      encounters frames s (VDict (pre ++ (k, v) :: post))
| column_within_column :
    forall frames s pre k v post q s1 c,
      Stack.build frames (VDict pre) s = Ok (q, s1) ->
      String.eqb k "$and" = false -> String.eqb k "$or" = false ->
      QueryBuilder.is_operator k = false ->
      isinstance_dict v = true ->
      QueryBuilder.current_column s1 = Some c ->
      encounters frames s (VDict (pre ++ (k, v) :: post))
| within_group :
    forall frames s pre k v post q s1,
      Stack.build (2 + frames) (VDict pre) s = Ok (q, s1) ->
      String.eqb k "$and" = true \/ String.eqb k "$or" = true ->
      encounters frames s1 v ->
      encounters (2 + frames) s (VDict (pre ++ (k, v) :: post))
| within_column_scope :
    forall frames s pre k v post q s1,
      Stack.build (2 + frames) (VDict pre) s = Ok (q, s1) ->
      String.eqb k "$and" = false -> String.eqb k "$or" = false ->
      QueryBuilder.is_operator k = false ->
      isinstance_dict v = true ->
      QueryBuilder.current_column s1 = None ->
      encounters frames
        {| QueryBuilder.params := QueryBuilder.params s1;
           QueryBuilder.current_column := Some k |} v ->
      encounters (2 + frames) s (VDict (pre ++ (k, v) :: post)).

(** ** Predicates of the proofs *)

(** [build] on [w] leaves the current column as it found it. *)
Definition keeps_column (w : value) : Prop :=
  forall s q s',
    QueryBuilder.build w s = Ok (q, s') ->
    QueryBuilder.current_column s' = QueryBuilder.current_column s.

(** What the outcome of a run says about the filter. *)
Definition outcome {A} (r : result (A * QueryBuilder.t)) (col : option string)
           (w : value) : Prop :=
  match r with
  | Ok _ => violates col w = false
  | Err AssertionError => violates col w = true
  | Err AttributeError => grouped w = false
  | Err _ => False
  end.

Definition classified (w : value) : Prop :=
  forall s, outcome (QueryBuilder.build w s) (QueryBuilder.current_column s) w.

(** The separators of [group]: plain text that starts with a space. *)
Definition separator (render : value -> string) (sep : string) : Prop :=
  (forall x, starts_with_s (sep ++ x) = false) /\
  (forall x ps, substitute render (sep ++ x) ps
                = on_fst (append sep) (substitute render x ps)).

(** The parameters that a run appends fill its clauses, and give the
    clauses of [literal]. *)
Definition aligned {A} (sub : A -> list value -> option (A * list value))
           (r : result (A * QueryBuilder.t)) (s : QueryBuilder.t) (lit : A)
  : Prop :=
  forall c s',
    r = Ok (c, s') ->
    exists new,
      QueryBuilder.params s' = (QueryBuilder.params s ++ new)%list /\
      forall rest, sub c (new ++ rest)%list = Some (lit, rest).

Definition fills (render : value -> string) (w : value) : Prop :=
  forall s,
    keys_clean w = true ->
    column_clean (QueryBuilder.current_column s) ->
    aligned (substitute_all render) (QueryBuilder.build w s) s
            (literal render (QueryBuilder.current_column s) w).

(** A run of [build] on [w]: the clauses of [compile], the bound values
    appended to the parameters, the column as before. *)
Definition runs (w : value) : Prop :=
  forall s,
    QueryBuilder.build w s =
    match compile (QueryBuilder.current_column s) w with
    | Ok q =>
        Ok (q, {| QueryBuilder.params := (QueryBuilder.params s ++ bound w)%list;
                  QueryBuilder.current_column := QueryBuilder.current_column s |})
    | Err e => Err e
    end.

(** What the result of [compile] says about the filter. *)
Definition verdict (r : result (list string)) (col : option string)
           (w : value) : Prop :=
  match r with
  | Ok _ => grouped w = true /\ violates col w = false
  | Err AssertionError => violates col w = true
  | Err AttributeError => grouped w = false
  | Err _ => False
  end.

(** The query of a result, without its parameters. *)
Definition query_of (r : result (string * list value)) : result string :=
  match r with
  | Ok (q, _) => Ok q
  | Err e => Err e
  end.

(** A text without a percent sign. *)
Fixpoint plain (s : string) : bool :=
  match s with
  | EmptyString => true
  | String c r => negb (Ascii.eqb c "%") && plain r
  end.

(** The WHERE clause of [delete] and [update], on the test [b]. *)
Definition where_str (b : bool) (query : string) : string :=
  if b then "WHERE (" ++ query ++ ") " else "".

(** * Properties *)

(** ** check_valid_sql_ident *)

Lemma str_index_0 (c : ascii) (s : string) : str_index (String c s) 0 = Ok c.
Proof. reflexivity. Qed.

Lemma check_valid_sql_ident_str (c : ascii) (s : string) :
  check_valid_sql_ident (VStr (String c s)) =
  Ok (isalnum c && ident_chars (String c s)).
Proof.
  unfold check_valid_sql_ident.
  rewrite str_index_0. cbn [String.length Nat.eqb].
  destruct (isalnum c); reflexivity.
Qed.

(** C3, the part that fails: the digit-led identifier [1abc] is accepted. *)
Lemma check_valid_sql_ident_digit_led :
  check_valid_sql_ident (VStr "1abc") = Ok true.
Proof. reflexivity. Qed.

(** C3, as the code has it: [valid_name$1] is accepted, [bad name] and the
    empty string are rejected, and [1abc], whose first character is
    alphanumeric, is accepted. *)
Theorem check_valid_sql_ident_examples :
  check_valid_sql_ident (VStr "valid_name$1") = Ok true /\
  check_valid_sql_ident (VStr "bad name") = Ok false /\
  check_valid_sql_ident (VStr "") = Ok false /\
  check_valid_sql_ident (VStr "1abc") = Ok true.
Proof. repeat split; reflexivity. Qed.

(** C4: an identifier with a diacritic is accepted, since [isalnum] holds of
    accented letters, although the comment in the code says that such
    identifiers are rejected. *)
Theorem check_valid_sql_ident_accepts_diacritic :
  check_valid_sql_ident (VStr cafe) = Ok true /\
  isalnum (ascii_of_nat 233) = true.
Proof. split; reflexivity. Qed.

(** A character outside the alphanumerics and [_$] makes the identifier
    invalid, wherever it stands. *)
Lemma ident_chars_app_reject (a b : string) (c : ascii) :
  isalnum c || char_in c "_$" = false ->
  ident_chars (a ++ String c b) = false.
Proof.
  intros Hc. induction a as [|x a IH]; cbn [append ident_chars].
  - now rewrite Hc.
  - destruct (negb (isalnum x || char_in x "_$")); [reflexivity | exact IH].
Qed.

(** C9: on every value the identifier check returns a boolean; none of its
    steps raises, the index [ident[0]] included.  A value that is not a
    str, the empty str, a str whose first character is not alphanumeric
    and a str with a character outside the alphanumerics and [_$] all
    give [False]. *)
Theorem check_valid_sql_ident_total :
  (forall ident : value, exists b : bool, check_valid_sql_ident ident = Ok b) /\
  (forall ident : value,
      (forall s, ident <> VStr s) -> check_valid_sql_ident ident = Ok false) /\
  check_valid_sql_ident (VStr "") = Ok false /\
  (forall (c : ascii) (s : string),
      isalnum c = false ->
      check_valid_sql_ident (VStr (String c s)) = Ok false) /\
  (forall (a b : string) (c : ascii),
      isalnum c || char_in c "_$" = false ->
      check_valid_sql_ident (VStr (a ++ String c b)) = Ok false).
Proof.
  split; [|split; [|split; [|split]]].
  - intros [ | b | z | f | s | l | d ]; try (exists false; reflexivity).
    destruct s as [|c s].
    + exists false. reflexivity.
    + eexists. apply check_valid_sql_ident_str.
  - intros [ | b | z | f | s | l | d ] H; try reflexivity.
    now destruct (H s).
  - reflexivity.
  - intros c s Hc. now rewrite check_valid_sql_ident_str, Hc.
  - intros a b c Hc. destruct a as [|x a].
    + cbn [append]. rewrite check_valid_sql_ident_str.
      apply orb_false_elim in Hc as [-> _]. reflexivity.
    + change (String x a ++ String c b) with (String x (a ++ String c b)).
      rewrite check_valid_sql_ident_str.
      change (String x (a ++ String c b)) with (String x a ++ String c b).
      rewrite (ident_chars_app_reject _ _ _ Hc). now rewrite andb_false_r.
Qed.

(** ** The monad of the builders *)

Ltac unfold_monad :=
  unfold bind, ret, raise, get, modify in *.

(** ** QueryBuilder: the loop of [build] *)

Module QueryBuilderFacts.
Import QueryBuilder.

Lemma build_dict (d : list (string * value)) :
  build (VDict d) = loop build d [].
Proof. reflexivity. Qed.

Lemma loop_cons (k : string) (v : value) (d : list (string * value))
      (q : list string) (s : t) :
  loop build ((k, v) :: d) q s =
  match clause build k v s with
  | Ok (c, s1) => loop build d (q ++ [c]) s1
  | Err e => Err e
  end.
Proof. reflexivity. Qed.

(** The clauses already collected are kept in front. *)
Lemma loop_acc (d : list (string * value)) :
  forall (q : list string) (s : t),
    loop build d q s =
    match loop build d [] s with
    | Ok (q', s') => Ok ((q ++ q')%list, s')
    | Err e => Err e
    end.
Proof.
  induction d as [|[k v] d IH]; intros q s.
  - cbn. unfold ret. now rewrite app_nil_r.
  - rewrite !loop_cons.
    destruct (clause build k v s) as [[c s1]|e]; [|reflexivity].
    rewrite (IH (q ++ [c])%list), (IH ([] ++ [c])%list).
    destruct (loop build d [] s1) as [[q' s']|e]; [|reflexivity].
    now rewrite <- app_assoc.
Qed.

Lemma loop_app (d1 d2 : list (string * value)) :
  forall (q : list string) (s : t),
    loop build (d1 ++ d2) q s =
    match loop build d1 q s with
    | Ok (q1, s1) => loop build d2 q1 s1
    | Err e => Err e
    end.
Proof.
  induction d1 as [|[k v] d1 IH]; intros q s.
  - reflexivity.
  - cbn [app]. rewrite !loop_cons.
    destruct (clause build k v s) as [[c s1]|e]; [|reflexivity].
    apply IH.
Qed.

(** A filter object is compiled entry by entry, from left to right. *)
Lemma build_entry (pre post : list (string * value)) (k : string)
      (v : value) (s : t) :
  build (VDict (pre ++ (k, v) :: post)) s =
  (q1 <- build (VDict pre) ;;
   c <- clause build k v ;;
   q3 <- build (VDict post) ;;
   ret (q1 ++ c :: q3)%list) s.
Proof.
  rewrite !build_dict, loop_app. unfold bind at 1.
  destruct (loop build pre [] s) as [[q1 s1]|e]; [|reflexivity].
  rewrite loop_cons. unfold bind at 1.
  destruct (clause build k v s1) as [[c s2]|e]; [|reflexivity].
  rewrite loop_acc. unfold bind, ret.
  destruct (loop build post [] s2) as [[q3 s3]|e]; [|reflexivity].
  now rewrite <- app_assoc.
Qed.

End QueryBuilderFacts.

(** C1, the part that fails: with [$and] mapped to a sequence, the filter
    of the example is not compiled; [build] asks the sequence for its
    [items] and raises. *)
Lemma and_of_sequence_raises :
  QueryBuilder.build_query
    (VDict [("$and", VList [VDict [("a", VInt 1)]; VDict [("b", VInt 2)]])])
  = Err AttributeError.
Proof. reflexivity. Qed.

(** C1, as the code has it: the value of [$and] or [$or] is an object.
    [{"$and": {"a": 1, "b": 2}}] compiles to [a=%s AND b=%s] with the
    parameters 1, 2; in every filter the entries of the object under
    [$and] ([$or]) are compiled and their clauses joined with [" AND "]
    ([" OR "]) into one clause, which stands between the clauses of the
    entries before and after it; a sequence in that place raises. *)
Theorem group_joins_object_entries :
  QueryBuilder.build_query
    (VDict [("$and", VDict [("a", VInt 1); ("b", VInt 2)])])
  = Ok ("a=%s AND b=%s", [VInt 1; VInt 2]) /\
  (forall pre post v s,
      QueryBuilder.build (VDict (pre ++ ("$and", v) :: post)) s =
      (q1 <- QueryBuilder.build (VDict pre) ;;
       q2 <- QueryBuilder.build v ;;
       q3 <- QueryBuilder.build (VDict post) ;;
       ret (q1 ++ join " AND " q2 :: q3)%list) s) /\
  (forall pre post v s,
      QueryBuilder.build (VDict (pre ++ ("$or", v) :: post)) s =
      (q1 <- QueryBuilder.build (VDict pre) ;;
       q2 <- QueryBuilder.build v ;;
       q3 <- QueryBuilder.build (VDict post) ;;
       ret (q1 ++ join " OR " q2 :: q3)%list) s) /\
  (forall l s, QueryBuilder.build (VList l) s = Err AttributeError).
Proof.
  split; [reflexivity|].
  split; [|split]; intros.
  - rewrite QueryBuilderFacts.build_entry.
    unfold QueryBuilder.clause, QueryBuilder.group_with; cbn [String.eqb Ascii.eqb Bool.eqb].
    unfold bind, ret.
    destruct (QueryBuilder.build (VDict pre) s) as [[q1 s1]|e]; [|reflexivity].
    destruct (QueryBuilder.build v s1) as [[q2 s2]|e]; reflexivity.
  - rewrite QueryBuilderFacts.build_entry.
    unfold QueryBuilder.clause, QueryBuilder.group_with; cbn [String.eqb Ascii.eqb Bool.eqb].
    unfold bind, ret.
    destruct (QueryBuilder.build (VDict pre) s) as [[q1 s1]|e]; [|reflexivity].
    destruct (QueryBuilder.build v s1) as [[q2 s2]|e]; reflexivity.
  - reflexivity.
Qed.

(** ** QueryBuilder: the column context *)

Module ColumnContext.
Import QueryBuilder.

Lemma group_with_eq (v : value) (action : string) (s : t) :
  group_with build v action s =
  match build v s with
  | Ok (q, s') => Ok (join (" " ++ action ++ " ") q, s')
  | Err e => Err e
  end.
Proof.
  unfold group_with, bind, ret.
  destruct (build v s) as [[q s']|e]; reflexivity.
Qed.

Lemma op_eq (k : string) (v : value) (s : t) :
  op k v s =
  match current_column s with
  | None => Err AssertionError
  | Some c =>
      match lookup k operators with
      | None => Err KeyError
      | Some sym =>
          Ok (quoted c ++ " " ++ sym ++ " %s",
              {| params := (params s ++ [v])%list;
                 current_column := Some c |})
      end
  end.
Proof.
  unfold op, params_append. unfold_monad.
  destruct (current_column s) eqn:Hc; [|reflexivity].
  rewrite Hc.
  destruct (lookup k operators); reflexivity.
Qed.

(** The column scope: the nested group runs with the key as the current
    column, and the column found before is put back. *)
Lemma column_scope_eq (k : string) (v : value) (s : t) :
  String.eqb k "$and" = false -> String.eqb k "$or" = false ->
  is_operator k = false -> isinstance_dict v = true ->
  clause build k v s =
  match current_column s with
  | Some _ => Err AssertionError
  | None =>
      match build v {| params := params s; current_column := Some k |} with
      | Ok (q, s') =>
          Ok (join " AND " q,
              {| params := params s'; current_column := current_column s |})
      | Err e => Err e
      end
  end.
Proof.
  intros Hand Hor Hop Hdict. unfold clause.
  rewrite Hand, Hor, Hop, Hdict.
  unfold set_current_column. unfold bind at 1. unfold get.
  destruct (current_column s) eqn:Hc; [reflexivity|].
  unfold bind at 1. unfold modify at 1.
  unfold bind at 1. rewrite group_with_eq.
  destruct (build v _) as [[q s']|e]; reflexivity.
Qed.

Lemma clause_keeps_column (k : string) (v : value) :
  keeps_column v ->
  forall s c s', clause build k v s = Ok (c, s') ->
                 current_column s' = current_column s.
Proof.
  intros IH s c s'.
  destruct (String.eqb k "$and") eqn:Hand;
    [| destruct (String.eqb k "$or") eqn:Hor;
       [| destruct (is_operator k) eqn:Hop;
          [| destruct (isinstance_dict v) eqn:Hdict ]]].
  - unfold clause. rewrite Hand, group_with_eq.
    destruct (build v s) as [[q s1]|e] eqn:Hb; [|discriminate].
    intros H; injection H as _ <-. eapply IH, Hb.
  - unfold clause. rewrite Hand, Hor, group_with_eq.
    destruct (build v s) as [[q s1]|e] eqn:Hb; [|discriminate].
    intros H; injection H as _ <-. eapply IH, Hb.
  - unfold clause. rewrite Hand, Hor, Hop, op_eq.
    destruct (current_column s) eqn:Hc; [|discriminate].
    destruct (lookup k operators); [|discriminate].
    intros H; injection H as _ <-. reflexivity.
  - rewrite column_scope_eq by assumption.
    destruct (current_column s); [discriminate|].
    destruct (build v _) as [[q s1]|e]; [|discriminate].
    intros H; injection H as _ <-. reflexivity.
  - unfold clause. rewrite Hand, Hor, Hop, Hdict.
    unfold params_append. unfold_monad.
    intros H; injection H as _ <-. reflexivity.
Qed.

Lemma loop_keeps_column (d : list (string * value)) :
  Forall (fun kv => keeps_column (snd kv)) d ->
  forall q s q' s', loop build d q s = Ok (q', s') ->
                    current_column s' = current_column s.
Proof.
  induction 1 as [|[k v] d Hv _ IH]; intros q s q' s'.
  - cbn. unfold ret. intros H; injection H as _ <-. reflexivity.
  - rewrite QueryBuilderFacts.loop_cons.
    destruct (clause build k v s) as [[c s1]|e] eqn:Hc; [|discriminate].
    intros H. apply IH in H. rewrite H.
    eapply clause_keeps_column; eauto.
Qed.

Lemma build_keeps_column : forall w, keeps_column w.
Proof.
  induction w as [ | b | z | f | x | l | d IH ] using value_ind;
    try (intros s q s' H; discriminate H).
  intros s q s'. rewrite QueryBuilderFacts.build_dict.
  now apply loop_keeps_column.
Qed.

End ColumnContext.

(** C10: when [build] returns, the builder's current column is the one it
    had when [build] was called; a column scope runs its nested group with
    its key as the current column and then puts back the column it found
    (none, since a scope opens only outside every column). *)
Theorem build_restores_current_column :
  (forall (w : value) (s : QueryBuilder.t) (q : list string)
          (s' : QueryBuilder.t),
      QueryBuilder.build w s = Ok (q, s') ->
      QueryBuilder.current_column s' = QueryBuilder.current_column s) /\
  (forall (k : string) (v : value) (s : QueryBuilder.t),
      String.eqb k "$and" = false -> String.eqb k "$or" = false ->
      QueryBuilder.is_operator k = false -> isinstance_dict v = true ->
      QueryBuilder.current_column s = None ->
      QueryBuilder.clause QueryBuilder.build k v s =
      match QueryBuilder.build v
              {| QueryBuilder.params := QueryBuilder.params s;
                 QueryBuilder.current_column := Some k |} with
      | Ok (q, s') =>
          Ok (join " AND " q,
              {| QueryBuilder.params := QueryBuilder.params s';
                 QueryBuilder.current_column := None |})
      | Err e => Err e
      end).
Proof.
  split.
  - intros w s q s'. apply ColumnContext.build_keeps_column.
  - intros k v s Hand Hor Hop Hdict Hcol.
    rewrite ColumnContext.column_scope_eq by assumption.
    now rewrite Hcol.
Qed.

(** C10 at work: a group compiled inside the column [a], and a column
    scope opened outside every column. *)
Lemma build_restores_current_column_witness :
  let w := VDict [("$or", VDict [("$lt", VInt 1); ("$gt", VInt 5)])] in
  let s := {| QueryBuilder.params := [VInt 0];
              QueryBuilder.current_column := Some "a" |} in
  let q := [quoted "a" ++ " < %s OR " ++ quoted "a" ++ " > %s"] in
  let s' := {| QueryBuilder.params := [VInt 0; VInt 1; VInt 5];
               QueryBuilder.current_column := Some "a" |} in
  (QueryBuilder.build w s = Ok (q, s') /\
   QueryBuilder.current_column s' = QueryBuilder.current_column s) /\
  QueryBuilder.clause QueryBuilder.build "a" w QueryBuilder.init
  = Ok (quoted "a" ++ " < %s OR " ++ quoted "a" ++ " > %s",
        {| QueryBuilder.params := [VInt 1; VInt 5];
           QueryBuilder.current_column := None |}).
Proof.
  intros w s q s'. split; [split; [reflexivity|]|].
  - apply (proj1 build_restores_current_column w s q s'). reflexivity.
  - rewrite (proj2 build_restores_current_column "a" w QueryBuilder.init);
      reflexivity.
Defined.

(** ** QueryBuilder: the assertions *)

Module Faults.
Import QueryBuilder.

Lemma is_operator_lookup (k : string) :
  is_operator k = true -> exists sym, lookup k operators = Some sym.
Proof.
  unfold is_operator. destruct (lookup k operators) as [sym|];
    [eauto | discriminate].
Qed.

Lemma violates_dict (col : option string) (k : string) (v : value)
      (d : list (string * value)) :
  violates col (VDict ((k, v) :: d)) =
  violates col (VDict [(k, v)]) || violates col (VDict d).
Proof. cbn. now rewrite orb_false_r. Qed.

Lemma grouped_dict (k : string) (v : value) (d : list (string * value)) :
  grouped (VDict ((k, v) :: d)) = grouped (VDict [(k, v)]) && grouped (VDict d).
Proof. cbn. now rewrite andb_true_r. Qed.

(** One entry: the outcome of its clause, and the column kept. *)
Lemma clause_classified (k : string) (v : value) :
  classified v ->
  forall s,
    outcome (clause build k v s) (current_column s) (VDict [(k, v)]).
Proof.
  intros IH s. unfold outcome.
  destruct (String.eqb k "$and") eqn:Hand;
    [| destruct (String.eqb k "$or") eqn:Hor;
       [| destruct (is_operator k) eqn:Hop;
          [| destruct (isinstance_dict v) eqn:Hdict ]]].
  - unfold clause. rewrite Hand, ColumnContext.group_with_eq.
    specialize (IH s). unfold outcome in IH.
    cbn [violates grouped existsb forallb]. rewrite Hand, orb_false_r, andb_true_r.
    destruct (build v s) as [[q s1]|[]]; exact IH.
  - unfold clause. rewrite Hand, Hor, ColumnContext.group_with_eq.
    specialize (IH s). unfold outcome in IH.
    cbn [violates grouped existsb forallb].
    rewrite Hand, Hor, orb_false_r, andb_true_r.
    destruct (build v s) as [[q s1]|[]]; exact IH.
  - unfold clause. rewrite Hand, Hor, Hop, ColumnContext.op_eq.
    cbn [violates existsb]. rewrite Hand, Hor, Hop, orb_false_r.
    destruct (current_column s); [|reflexivity].
    destruct (is_operator_lookup k Hop) as [sym ->]. reflexivity.
  - rewrite ColumnContext.column_scope_eq by assumption.
    cbn [violates grouped existsb forallb].
    rewrite Hand, Hor, Hop, Hdict, orb_false_r, andb_true_r.
    destruct (current_column s); [reflexivity|].
    specialize (IH {| params := params s; current_column := Some k |}).
    unfold outcome in IH. cbn [current_column] in IH.
    destruct (build v _) as [[q s1]|[]]; exact IH.
  - unfold clause. rewrite Hand, Hor, Hop, Hdict.
    unfold params_append. unfold_monad.
    cbn [violates existsb]. now rewrite Hand, Hor, Hop, Hdict.
Qed.

Lemma loop_classified (d : list (string * value)) :
  Forall (fun kv => classified (snd kv)) d ->
  forall q s, outcome (loop build d q s) (current_column s) (VDict d).
Proof.
  induction 1 as [|[k v] d Hv _ IH]; intros q s.
  - reflexivity.
  - rewrite QueryBuilderFacts.loop_cons.
    cbn [snd] in Hv. pose proof (clause_classified k Hv s) as Hc.
    destruct (clause build k v s) as [[c s1]|e] eqn:Hcl.
    + apply ColumnContext.clause_keeps_column in Hcl;
        [|apply ColumnContext.build_keeps_column].
      specialize (IH (q ++ [c])%list s1). rewrite Hcl in IH.
      unfold outcome in *.
      rewrite violates_dict, grouped_dict, Hc.
      destruct (loop build d (q ++ [c]) s1) as [[q' s']|[]];
        try exact IH.
      rewrite IH. apply andb_false_r.
    + unfold outcome in *.
      rewrite violates_dict, grouped_dict.
      destruct e; try exact Hc; now rewrite Hc.
Qed.

Lemma build_classified : forall w, classified w.
Proof.
  induction w as [ | b | z | f | x | l | d IH ] using value_ind;
    try (intros s; reflexivity).
  intros s. rewrite QueryBuilderFacts.build_dict.
  now apply loop_classified.
Qed.

(** [build_query] on a filter that is not empty. *)
Lemma build_query_dict (kv : string * value) (d : list (string * value)) :
  build_query (VDict (kv :: d)) =
  match build (VDict (kv :: d)) init with
  | Ok (q, s) => Ok (join " AND " q, params s)
  | Err e => Err e
  end.
Proof.
  unfold build_query, group. cbn [len List.length].
  rewrite ColumnContext.group_with_eq.
  destruct (build (VDict (kv :: d)) init) as [[q s]|e]; reflexivity.
Qed.

End Faults.

(** C5, the part that fails: an [$or] key with an object value, met while
    the column [a] is active, raises nothing; the filter compiles. *)
Lemma group_under_column_compiles :
  QueryBuilder.build_query
    (VDict [("a", VDict [("$or", VDict [("$lt", VInt 1); ("$gt", VInt 5)])])])
  = Ok (quoted "a" ++ " < %s OR " ++ quoted "a" ++ " > %s", [VInt 1; VInt 5]).
Proof. reflexivity. Qed.

(** ** The handlers on an empty filter *)

(** C7: [build_query] of the empty object and of [None] is the empty query
    with no parameters, and with either as the filter the SQL text of
    [delete], [select] and [update] is the statement without a WHERE
    clause. *)
Theorem empty_filter_omits_where :
  QueryBuilder.build_query (VDict []) = Ok ("", []) /\
  QueryBuilder.build_query VNone = Ok ("", []) /\
  Forall (fun w : value =>
            (forall table,
                delete table w
                = Ok ("DELETE FROM " ++ table ++ "  RETURNING *", [])) /\
            (forall table columns,
                select table w columns
                = match select_columns_str columns with
                  | Ok cs => Ok ("SELECT " ++ cs ++ " FROM " ++ table, [])
                  | Err e => Err e
                  end) /\
            (forall table values,
                update table w values
                = match items values with
                  | Ok d =>
                      Ok ("UPDATE " ++ table ++ " SET "
                            ++ join "," (map (fun x => quoted (fst x) ++ " = %s")
                                             (sorted d))
                            ++ " RETURNING *",
                          map snd (sorted d))
                  | Err e => Err e
                  end))
         [VDict []; VNone].
Proof.
  split; [reflexivity|]. split; [reflexivity|].
  apply Forall_cons; [|apply Forall_cons; [|apply Forall_nil]];
    (split; [|split]).
  - reflexivity.
  - intros table columns.
    unfold select. destruct (select_columns_str columns); reflexivity.
  - intros table values.
    unfold update. destruct (items values); [|reflexivity].
    cbn. now rewrite app_nil_r.
  - reflexivity.
  - intros table columns.
    unfold select. destruct (select_columns_str columns); reflexivity.
  - intros table values.
    unfold update. destruct (items values); [|reflexivity].
    cbn. now rewrite app_nil_r.
Qed.

(** ** InsertBuilder *)

Module InsertFacts.
Import InsertBuilder.

Lemma insert_item_perm (x : string * value) (l : list (string * value)) :
  Permutation (insert_item x l) (x :: l).
Proof.
  induction l as [|y l IH]; cbn.
  - apply Permutation_refl.
  - destruct (String.leb (fst x) (fst y)).
    + apply Permutation_refl.
    + eapply perm_trans; [apply perm_skip, IH | apply perm_swap].
Qed.

Lemma sorted_perm (l : list (string * value)) : Permutation (sorted l) l.
Proof.
  induction l as [|x l IH]; cbn.
  - apply perm_nil.
  - eapply perm_trans; [apply insert_item_perm | apply perm_skip, IH].
Qed.

Lemma sorted_length (l : list (string * value)) :
  List.length (sorted l) = List.length l.
Proof. apply Permutation_length, sorted_perm. Qed.

Lemma not_leb_leb (a b : string) :
  String.leb a b = false -> String.leb b a = true.
Proof.
  intros H. destruct (String.leb_total a b) as [H'|H']; congruence.
Qed.

Lemma insert_item_hd (x a : string * value) (l : list (string * value)) :
  key_le a x -> HdRel key_le a l -> HdRel key_le a (insert_item x l).
Proof.
  intros Hax Hal. destruct l as [|y l]; cbn.
  - now constructor.
  - destruct (String.leb (fst x) (fst y)); constructor;
      [assumption | now inversion Hal].
Qed.

Lemma insert_item_sorted (x : string * value) (l : list (string * value)) :
  Sorted key_le l -> Sorted key_le (insert_item x l).
Proof.
  induction 1 as [|y l Hl IH Hy]; cbn.
  - repeat constructor.
  - destruct (String.leb (fst x) (fst y)) eqn:Hxy.
    + constructor; [now constructor|].
      constructor. exact Hxy.
    + constructor; [exact IH|].
      apply insert_item_hd; [|exact Hy].
      now apply not_leb_leb.
Qed.

Lemma sorted_sorted (l : list (string * value)) : Sorted key_le (sorted l).
Proof.
  induction l as [|x l IH]; cbn.
  - constructor.
  - now apply insert_item_sorted.
Qed.

Lemma placeholders_of_row (d : list (string * value)) :
  map (fun _ : string * value => "%s") d = repeat "%s" (List.length d).
Proof. induction d as [|x d IH]; cbn; [reflexivity | now rewrite IH]. Qed.

(** [add] on a row object. *)
Lemma add_row (d : list (string * value)) (s : t) :
  add (VDict d) s =
  Ok (tt, {| params := (params s ++ map snd (sorted d))%list;
             value_strs :=
               (value_strs s ++ [placeholder_tuple (List.length d)])%list;
             first_item := match first_item s with
                           | None => Some (sorted d)
                           | Some f => Some f
                           end |}).
Proof.
  unfold add, placeholder_tuple. cbn [items]. unfold modify.
  now rewrite placeholders_of_row.
Qed.

(** The builder after a sequence of row objects. *)
Lemma add_all_rows (rows : list (list (string * value))) :
  forall s,
    add_all (map VDict rows) s =
    Ok (tt,
        {| params :=
             (params s
                ++ List.concat (map (fun r => map snd (sorted r)) rows))%list;
           value_strs :=
             (value_strs s
                ++ map (fun r => placeholder_tuple (List.length r)) rows)%list;
           first_item :=
             match first_item s with
             | Some f => Some f
             | None => match rows with
                       | [] => None
                       | r :: _ => Some (sorted r)
                       end
             end |}).
Proof.
  induction rows as [|r rows IH]; intros s.
  - cbn. unfold ret. rewrite !app_nil_r. now destruct s as [p v [f|]].
  - cbn [map add_all]. unfold bind. rewrite add_row, IH.
    cbn [params value_strs first_item List.concat map].
    rewrite <- !app_assoc. cbn [app].
    now destruct (first_item s).
Qed.

Lemma length_params (rows : list (list (string * value))) :
  List.length (List.concat (map (fun r => map snd (sorted r)) rows))
  = list_sum (map (@List.length _) rows).
Proof.
  induction rows as [|r rows IH]; cbn; [reflexivity|].
  now rewrite length_app, length_map, sorted_length, IH.
Qed.

End InsertFacts.

(** ** Placeholders and parameters *)

Module Placeholders.
Import QueryBuilder.

Lemma append_nil_r (s : string) : s ++ "" = s.
Proof. induction s as [|c s IH]; cbn; [reflexivity | now rewrite IH]. Qed.

Lemma append_assoc (a b c : string) : (a ++ b) ++ c = a ++ b ++ c.
Proof. induction a as [|x a IH]; cbn; [reflexivity | now rewrite IH]. Qed.

(** Induction on a string two characters at a time, as the scan for
    [%s] reads it. *)
Lemma string_ind2 (P : string -> Prop) :
  P "" ->
  (forall c, P (String c "")) ->
  (forall c d r, P r -> P (String d r) -> P (String c (String d r))) ->
  forall s, P s.
Proof.
  intros H0 H1 H2 s.
  enough (H : P s /\ forall c, P (String c s)) by apply H.
  induction s as [|d r [IHr IHdr]]; split; auto.
Qed.

Section substitution.

Variable render : value -> string.

Lemma on_fst_on_fst {A B C D} (f : A -> C) (g : C -> D)
      (x : option (A * B)) :
  on_fst g (on_fst f x) = on_fst (fun a => g (f a)) x.
Proof. destruct x as [[a b]|]; reflexivity. Qed.

Lemma on_fst_ext {A B C} (f g : A -> C) (x : option (A * B)) :
  (forall a, f a = g a) -> on_fst f x = on_fst g x.
Proof. intros H. destruct x as [[a b]|]; cbn; [now rewrite H | reflexivity]. Qed.

Lemma substitute_cons2 (c d : ascii) (r : string) (ps : list value) :
  substitute render (String c (String d r)) ps =
  if Ascii.eqb c "%" then
    if Ascii.eqb d "s" then
      match ps with
      | [] => None
      | p :: ps' => on_fst (append (render p)) (substitute render r ps')
      end
    else on_fst (String c) (substitute render (String d r) ps)
  else on_fst (String c) (substitute render (String d r) ps).
Proof. reflexivity. Qed.

Lemma count_placeholders_cons2 (c d : ascii) (r : string) :
  count_placeholders (String c (String d r)) =
  if Ascii.eqb c "%" then
    if Ascii.eqb d "s" then S (count_placeholders r)
    else count_placeholders (String d r)
  else count_placeholders (String d r).
Proof. reflexivity. Qed.

(** A text without [%s] is left as it is. *)
Lemma substitute_clean (k : string) :
  no_placeholder k = true ->
  forall ps, substitute render k ps = Some (k, ps).
Proof.
  unfold no_placeholder. intros Hk ps. apply Nat.eqb_eq in Hk.
  induction k as [|c r IH]; [reflexivity|].
  cbn [substitute count_placeholders] in *.
  destruct (Ascii.eqb c "%").
  - destruct r as [|d r']; [reflexivity|].
    destruct (Ascii.eqb d "s"); [discriminate|].
    now rewrite (IH Hk).
  - now rewrite (IH Hk).
Qed.

(** Substitution in a text followed by one that does not start with
    [s]: the first text takes its parameters, the second the rest. *)
Lemma substitute_app (f : string) :
  forall ps f' ps',
    substitute render f ps = Some (f', ps') ->
    forall b, starts_with_s b = false ->
              substitute render (f ++ b) ps
              = on_fst (append f') (substitute render b ps').
Proof.
  induction f as [|c|c d r IHr IHdr] using string_ind2;
    intros ps f' ps' Hf b Hb.
  - cbn in Hf. injection Hf as <- <-. cbn [append].
    now destruct (substitute render b ps) as [[x y]|].
  - cbn [append].
    assert (Hc : f' = String c "" /\ ps' = ps).
    { cbn in Hf. destruct (Ascii.eqb c "%"); now injection Hf as <- <-. }
    destruct Hc as [-> ->]. cbn [substitute].
    destruct (Ascii.eqb c "%").
    + destruct b as [|x b]; [reflexivity|].
      cbn [starts_with_s] in Hb. rewrite Hb.
      now destruct (substitute render (String x b) ps) as [[y z]|].
    + now destruct (substitute render b ps) as [[y z]|].
  - cbn [append]. rewrite substitute_cons2 in Hf |- *.
    destruct (Ascii.eqb c "%"); [destruct (Ascii.eqb d "s")|].
    + destruct ps as [|p ps]; [discriminate|].
      destruct (substitute render r ps) as [[r' ps1]|] eqn:Hr;
        [|discriminate].
      cbn in Hf. injection Hf as <- <-.
      rewrite (IHr _ _ _ Hr b Hb), on_fst_on_fst.
      apply on_fst_ext. intros a. now rewrite append_assoc.
    + destruct (substitute render (String d r) ps) as [[r' ps1]|] eqn:Hr;
        [|discriminate].
      cbn in Hf. injection Hf as <- <-.
      change (String d (r ++ b)) with (String d r ++ b).
      rewrite (IHdr _ _ _ Hr b Hb), on_fst_on_fst.
      now apply on_fst_ext.
    + destruct (substitute render (String d r) ps) as [[r' ps1]|] eqn:Hr;
        [|discriminate].
      cbn in Hf. injection Hf as <- <-.
      change (String d (r ++ b)) with (String d r ++ b).
      rewrite (IHdr _ _ _ Hr b Hb), on_fst_on_fst.
      now apply on_fst_ext.
Qed.

(** Each placeholder takes one parameter. *)
Lemma substitute_count (s : string) :
  forall ps s' rest,
    substitute render s ps = Some (s', rest) ->
    List.length ps = count_placeholders s + List.length rest.
Proof.
  induction s as [|c|c d r IHr IHdr] using string_ind2;
    intros ps s' rest Hs.
  - cbn in Hs. now injection Hs as _ <-.
  - cbn in Hs |- *. destruct (Ascii.eqb c "%"); now injection Hs as _ <-.
  - rewrite substitute_cons2 in Hs. rewrite count_placeholders_cons2.
    destruct (Ascii.eqb c "%"); [destruct (Ascii.eqb d "s")|].
    + destruct ps as [|p ps]; [discriminate|].
      destruct (substitute render r ps) as [[r' ps1]|] eqn:Hr;
        [|discriminate].
      cbn in Hs. injection Hs as _ <-.
      cbn. now rewrite (IHr _ _ _ Hr).
    + destruct (substitute render (String d r) ps) as [[r' ps1]|] eqn:Hr;
        [|discriminate].
      cbn in Hs. injection Hs as _ <-.
      apply (IHdr _ _ _ Hr).
    + destruct (substitute render (String d r) ps) as [[r' ps1]|] eqn:Hr;
        [|discriminate].
      cbn in Hs. injection Hs as _ <-.
      apply (IHdr _ _ _ Hr).
Qed.

Lemma substitute_all_cons (f : string) (l : list string)
      (ps : list value) :
  substitute_all render (f :: l) ps =
  match substitute render f ps with
  | None => None
  | Some (f', ps') => on_fst (cons f') (substitute_all render l ps')
  end.
Proof. reflexivity. Qed.

Lemma separator_and : separator render " AND ".
Proof.
  split; [reflexivity|]. intros x ps. cbn.
  now destruct (substitute render x ps) as [[y z]|].
Qed.

Lemma separator_or : separator render " OR ".
Proof.
  split; [reflexivity|]. intros x ps. cbn.
  now destruct (substitute render x ps) as [[y z]|].
Qed.

(** Substitution goes through [join]: clause by clause. *)
Lemma substitute_join (sep : string) :
  separator render sep ->
  forall frags ps lits rest,
    substitute_all render frags ps = Some (lits, rest) ->
    substitute render (join sep frags) ps = Some (join sep lits, rest).
Proof.
  intros [Hs Hsep]. induction frags as [|f frags IH];
    intros ps lits rest H.
  - cbn in H. now injection H as <- <-.
  - rewrite substitute_all_cons in H.
    destruct (substitute render f ps) as [[f' ps1]|] eqn:Hf;
      [|discriminate].
    destruct (substitute_all render frags ps1) as [[lits' rest']|] eqn:Hl;
      [|discriminate].
    cbn in H. injection H as <- <-.
    destruct frags as [|g frags].
    + cbn in Hl. injection Hl as <- <-. exact Hf.
    + specialize (IH _ _ _ Hl).
      destruct lits' as [|g' lits'].
      { rewrite substitute_all_cons in Hl.
        destruct (substitute render g ps1) as [[? ?]|]; [|discriminate].
        destruct (substitute_all render frags l) as [[? ?]|];
          discriminate. }
      change (join sep (f :: g :: frags))
        with (f ++ sep ++ join sep (g :: frags)).
      change (join sep (f' :: g' :: lits'))
        with (f' ++ sep ++ join sep (g' :: lits')).
      rewrite (substitute_app _ _ Hf _ (Hs _)), Hsep, IH.
      reflexivity.
Qed.

Lemma quoted_app (c x : string) :
  quoted c ++ x = String (ascii_of_nat 34) (c ++ String (ascii_of_nat 34) x).
Proof.
  unfold quoted, dq. now rewrite !append_assoc.
Qed.

(** The clause of a comparison operator, with its value in place. *)
Lemma substitute_op (c k sym : string) (v : value) (rest : list value) :
  no_placeholder c = true ->
  lookup k operators = Some sym ->
  substitute render (quoted c ++ " " ++ sym ++ " %s") (v :: rest)
  = Some (quoted c ++ " " ++ sym ++ " " ++ render v, rest).
Proof.
  intros Hc Hk. rewrite !quoted_app.
  assert (Hsym : In sym [">"; ">="; "<"; "<="; "="]).
  { unfold lookup, operators in Hk.
    repeat match type of Hk with
           | (if ?b then _ else _) = _ => destruct b
           end;
      try discriminate; injection Hk as <-; cbn; tauto. }
  change (substitute render (String (ascii_of_nat 34) ?x) ?ps)
    with (on_fst (String (ascii_of_nat 34)) (substitute render x ps)).
  rewrite (substitute_app _ _ (substitute_clean c Hc (v :: rest)))
    by reflexivity.
  cbn in Hsym.
  destruct Hsym as [<-|[<-|[<-|[<-|[<-|[]]]]]]; cbn;
    now rewrite append_nil_r.
Qed.

(** The clause of an implicit equality, with its value in place. *)
Lemma substitute_equality (k : string) (v : value) (rest : list value) :
  no_placeholder k = true ->
  substitute render (k ++ "=%s") (v :: rest)
  = Some (k ++ "=" ++ render v, rest).
Proof.
  intros Hk.
  rewrite (substitute_app _ _ (substitute_clean k Hk (v :: rest)))
    by reflexivity.
  cbn. now rewrite append_nil_r.
Qed.

Lemma keys_clean_dict (k : string) (v : value)
      (d : list (string * value)) :
  keys_clean (VDict ((k, v) :: d))
  = keys_clean (VDict [(k, v)]) && keys_clean (VDict d).
Proof. cbn. now rewrite andb_true_r. Qed.

Lemma literal_dict (col : option string) (k : string) (v : value)
      (d : list (string * value)) :
  literal render col (VDict ((k, v) :: d))
  = (literal render col (VDict [(k, v)]) ++ literal render col (VDict d))%list.
Proof. reflexivity. Qed.

(** One entry: its clause, filled, is the literal clause of the entry. *)
Lemma clause_fills (k : string) (v : value) :
  fills render v ->
  forall s,
    keys_clean (VDict [(k, v)]) = true ->
    column_clean (current_column s) ->
    forall c s',
      clause build k v s = Ok (c, s') ->
      exists new lc,
        literal render (current_column s) (VDict [(k, v)]) = [lc] /\
        params s' = (params s ++ new)%list /\
        forall rest, substitute render c (new ++ rest)%list = Some (lc, rest).
Proof.
  intros IH s Hk Hcol c s'.
  cbn [keys_clean forallb] in Hk. rewrite andb_true_r in Hk.
  cbn [literal map].
  destruct (String.eqb k "$and") eqn:Hand;
    [| destruct (String.eqb k "$or") eqn:Hor;
       [| destruct (is_operator k) eqn:Hop;
          [| destruct (isinstance_dict v) eqn:Hdict ]]].
  - unfold clause. rewrite Hand, ColumnContext.group_with_eq.
    destruct (build v s) as [[q s1]|e] eqn:Hb; [|discriminate].
    intros H; injection H as <- <-.
    destruct (IH s Hk Hcol q s1 Hb) as [new [Hp Hsub]].
    exists new, (join " AND " (literal render (current_column s) v)).
    repeat split; [exact Hp|]. intros rest.
    apply (substitute_join separator_and), Hsub.
  - unfold clause. rewrite Hand, Hor, ColumnContext.group_with_eq.
    destruct (build v s) as [[q s1]|e] eqn:Hb; [|discriminate].
    intros H; injection H as <- <-.
    destruct (IH s Hk Hcol q s1 Hb) as [new [Hp Hsub]].
    exists new, (join " OR " (literal render (current_column s) v)).
    repeat split; [exact Hp|]. intros rest.
    apply (substitute_join separator_or), Hsub.
  - unfold clause. rewrite Hand, Hor, Hop, ColumnContext.op_eq.
    destruct (current_column s) as [c0|] eqn:Hc0; [|discriminate].
    destruct (Faults.is_operator_lookup k Hop) as [sym Hsym].
    rewrite Hsym. intros H; injection H as <- <-.
    exists [v], (quoted c0 ++ " " ++ sym ++ " " ++ render v).
    unfold symbol. rewrite Hsym. repeat split.
    intros rest. apply substitute_op with (k := k); assumption.
  - rewrite ColumnContext.column_scope_eq by assumption.
    destruct (current_column s) eqn:Hc0; [discriminate|].
    destruct (build v _) as [[q s1]|e] eqn:Hb; [|discriminate].
    intros H; injection H as <- <-.
    apply andb_prop in Hk as [Hkc Hkv].
    destruct (IH {| params := params s; current_column := Some k |}
                 Hkv Hkc q s1 Hb) as [new [Hp Hsub]].
    exists new, (join " AND " (literal render (Some k) v)).
    repeat split; [exact Hp|]. intros rest.
    apply (substitute_join separator_and), Hsub.
  - unfold clause. rewrite Hand, Hor, Hop, Hdict.
    unfold params_append. unfold_monad.
    intros H; injection H as <- <-.
    exists [v], (k ++ "=" ++ render v). repeat split.
    intros rest. now apply substitute_equality.
Qed.

Lemma loop_fills (d : list (string * value)) :
  Forall (fun kv => fills render (snd kv)) d ->
  forall s,
    keys_clean (VDict d) = true ->
    column_clean (current_column s) ->
    aligned (substitute_all render) (loop build d [] s) s
            (literal render (current_column s) (VDict d)).
Proof.
  induction 1 as [|[k v] d Hv _ IH]; intros s Hk Hcol frags s' Hl.
  - cbn in Hl. unfold ret in Hl. injection Hl as <- <-.
    exists []. split; [now rewrite app_nil_r | reflexivity].
  - cbn [snd] in Hv.
    rewrite keys_clean_dict in Hk. apply andb_prop in Hk as [Hk1 Hk2].
    rewrite QueryBuilderFacts.loop_cons in Hl.
    destruct (clause build k v s) as [[c s1]|e] eqn:Hc; [|discriminate].
    rewrite QueryBuilderFacts.loop_acc in Hl.
    destruct (loop build d [] s1) as [[q' s2]|e] eqn:Hd; [|discriminate].
    injection Hl as <- <-.
    destruct (@clause_fills k v Hv s Hk1 Hcol c s1 Hc)
      as [new1 [lc [Hlit [Hp1 Hsub1]]]].
    assert (Hcol1 : current_column s1 = current_column s)
      by (eapply ColumnContext.clause_keeps_column;
          [apply ColumnContext.build_keeps_column | exact Hc]).
    rewrite <- Hcol1 in Hcol.
    destruct (IH s1 Hk2 Hcol q' s2 Hd) as [new2 [Hp2 Hsub2]].
    exists (new1 ++ new2)%list. split.
    + now rewrite Hp2, Hp1, app_assoc.
    + intros rest. rewrite literal_dict, Hlit, <- app_assoc.
      cbn [app]. rewrite substitute_all_cons, Hsub1, Hsub2.
      now rewrite Hcol1.
Qed.

Lemma build_fills : forall w, fills render w.
Proof.
  induction w as [ | b | z | f | x | l | d IH ] using value_ind;
    try (intros s _ _ c s' H; discriminate H).
  intros s Hk Hcol. rewrite QueryBuilderFacts.build_dict.
  now apply loop_fills.
Qed.

End substitution.

End Placeholders.

(** C2, the part that fails: a key is written into the SQL text as it is,
    so the filter [{"%s": 1}] compiles to [%s=%s], two placeholders for
    one parameter. *)
Lemma placeholder_in_key_misaligns :
  exists q ps,
    QueryBuilder.build_query (VDict [("%s", VInt 1)]) = Ok (q, ps) /\
    count_placeholders q <> List.length ps.
Proof.
  exists "%s=%s", [VInt 1]. split; [reflexivity | discriminate].
Qed.

(** C2, as the code has it: when no column name of the filter holds [%s]
    and the filter compiles, the query has as many placeholders as there
    are parameters, and filling the placeholders from the left with the
    parameters in their order gives the clauses of the filter with every
    value at its own place. *)
Theorem parameters_fill_placeholders :
  forall (render : value -> string) (w : value) (q : string)
         (ps : list value),
    keys_clean w = true ->
    QueryBuilder.build_query w = Ok (q, ps) ->
    count_placeholders q = List.length ps /\
    substitute render q ps = Some (literal_query render w, []).
Proof.
  intros render w q ps Hk Hq.
  enough (Hs : substitute render q ps = Some (literal_query render w, [])).
  { split; [|exact Hs].
    apply Placeholders.substitute_count in Hs. cbn in Hs. lia. }
  destruct w as [ | b | z | f | x | l | [|kv d] ];
    try discriminate Hq;
    try (injection Hq as <- <-; reflexivity).
  - destruct x; [injection Hq as <- <-; reflexivity | discriminate Hq].
  - destruct l; [injection Hq as <- <-; reflexivity | discriminate Hq].
  - rewrite Faults.build_query_dict in Hq.
    destruct (QueryBuilder.build (VDict (kv :: d)) QueryBuilder.init)
      as [[fr s]|e] eqn:Hb; [|discriminate].
    injection Hq as <- <-.
    destruct (Placeholders.build_fills render (VDict (kv :: d))
                QueryBuilder.init Hk I Hb) as [new [Hp Hsub]].
    cbn in Hp. rewrite Hp.
    specialize (Hsub []). rewrite app_nil_r in Hsub.
    apply (Placeholders.substitute_join (Placeholders.separator_and render)), Hsub.
Qed.

Lemma parameters_fill_placeholders_witness :
  let render := fun v => match v with
                         | VInt z => if Z.eqb z 1 then "1" else "5"
                         | _ => "'x'"
                         end in
  let w := VDict [("a", VDict [("$or", VDict [("$lt", VInt 1);
                                              ("$gt", VInt 5)])]);
                  ("b", VStr "x")] in
  let q := quoted "a" ++ " < %s OR " ++ quoted "a" ++ " > %s AND b=%s" in
  let ps := [VInt 1; VInt 5; VStr "x"] in
  keys_clean w = true /\
  QueryBuilder.build_query w = Ok (q, ps) /\
  count_placeholders q = 3 /\
  substitute render q ps
  = Some (quoted "a" ++ " < 1 OR " ++ quoted "a" ++ " > 5 AND b='x'", []).
Proof.
  intros render w q ps.
  split; [reflexivity|]. split; [reflexivity|].
  apply (@parameters_fill_placeholders render w q ps); reflexivity.
Defined.

(** * Further properties *)

(** ** QueryBuilder against the pure compiler *)

Module Compile.
Import QueryBuilder.

Lemma bound_dict (k : string) (v : value) (d : list (string * value)) :
  bound (VDict ((k, v) :: d))
  = (bound (VDict [(k, v)]) ++ bound (VDict d))%list.
Proof. cbn. now rewrite app_nil_r. Qed.

Lemma symbol_lookup (k sym : string) :
  lookup k operators = Some sym -> symbol k = sym.
Proof. unfold symbol. now intros ->. Qed.

Lemma clause_runs (k : string) (v : value) :
  runs v ->
  forall s,
    clause build k v s =
    match compile_clause compile (current_column s) k v with
    | Ok c => Ok (c, {| params := (params s ++ bound (VDict [(k, v)]))%list;
                        current_column := current_column s |})
    | Err e => Err e
    end.
Proof.
  intros IH [ps col]. unfold compile_clause.
  cbn [bound flat_map current_column params]. rewrite app_nil_r.
  destruct (String.eqb k "$and") eqn:Hand;
    [| destruct (String.eqb k "$or") eqn:Hor;
       [| destruct (is_operator k) eqn:Hop;
          [| destruct (isinstance_dict v) eqn:Hdict ]]].
  - unfold clause. rewrite Hand, ColumnContext.group_with_eq, IH.
    cbn [current_column params].
    destruct (compile col v); reflexivity.
  - unfold clause. rewrite Hand, Hor, ColumnContext.group_with_eq, IH.
    cbn [current_column params].
    destruct (compile col v); reflexivity.
  - unfold clause. rewrite Hand, Hor, Hop, ColumnContext.op_eq.
    cbn [current_column params].
    destruct col as [c|]; [|reflexivity].
    destruct (Faults.is_operator_lookup k Hop) as [sym Hsym].
    now rewrite Hsym, (symbol_lookup _ Hsym).
  - rewrite ColumnContext.column_scope_eq by assumption.
    cbn [current_column params].
    destruct col as [c|]; [reflexivity|].
    rewrite IH. cbn [current_column params].
    destruct (compile (Some k) v); reflexivity.
  - unfold clause. rewrite Hand, Hor, Hop, Hdict.
    reflexivity.
Qed.

Lemma loop_runs (d : list (string * value)) :
  Forall (fun kv => runs (snd kv)) d ->
  forall q s,
    loop build d q s =
    match compile_entries compile (current_column s) d with
    | Ok cs => Ok ((q ++ cs)%list,
                   {| params := (params s ++ bound (VDict d))%list;
                      current_column := current_column s |})
    | Err e => Err e
    end.
Proof.
  induction 1 as [|[k v] d Hv _ IH]; intros q [ps col].
  - cbn. unfold ret. now rewrite !app_nil_r.
  - cbn [snd] in Hv. rewrite QueryBuilderFacts.loop_cons, (@clause_runs k v Hv).
    cbn [compile_entries current_column params].
    destruct (compile_clause compile col k v) as [c|e]; [|reflexivity].
    rewrite IH. cbn [current_column params].
    destruct (compile_entries compile col d) as [cs|e]; [|reflexivity].
    now rewrite (bound_dict k v d), <- !app_assoc.
Qed.

Lemma build_runs : forall w, runs w.
Proof.
  induction w as [ | b | z | f | x | l | d IH ] using value_ind;
    try (intros s; reflexivity).
  intros s. rewrite QueryBuilderFacts.build_dict.
  now rewrite (@loop_runs d IH).
Qed.

(** [build_query] on a filter that is not empty, by [compile]. *)
Lemma build_query_compile (kv : string * value) (d : list (string * value)) :
  build_query (VDict (kv :: d)) =
  match compile None (VDict (kv :: d)) with
  | Ok q => Ok (join " AND " q, bound (VDict (kv :: d)))
  | Err e => Err e
  end.
Proof.
  rewrite Faults.build_query_dict, build_runs.
  cbn [current_column params init].
  destruct (compile None (VDict (kv :: d))); reflexivity.
Qed.

(** What [build_query] does on a value that is no object. *)
Lemma build_query_not_dict (w : value) :
  isinstance_dict w = false ->
  build_query w =
  match w with
  | VNone => Ok ("", [])
  | VStr s => if Nat.eqb (String.length s) 0 then Ok ("", [])
              else Err AttributeError
  | VList l => if Nat.eqb (List.length l) 0 then Ok ("", [])
               else Err AttributeError
  | _ => Err TypeError
  end.
Proof.
  destruct w as [ | b | z | f | x | l | d ]; intros H;
    try reflexivity; try discriminate H.
  - now destruct x.
  - now destruct l.
Qed.

End Compile.

(** X1: [build] with its builder object computes what the pure function
    [compile] computes with the column passed as an argument: the same
    clauses or the same exception; and when it returns, the builder's
    parameters are those it had followed by the values that the filter
    binds, in the order of the entries, and its column is unchanged.
    [build_query] of a filter object that is not empty returns the clauses
    joined with [" AND "] and the bound values. *)
Theorem build_refines_compile :
  (forall (w : value) (s : QueryBuilder.t),
      QueryBuilder.build w s =
      match compile (QueryBuilder.current_column s) w with
      | Ok q =>
          Ok (q, {| QueryBuilder.params :=
                      (QueryBuilder.params s ++ bound w)%list;
                    QueryBuilder.current_column :=
                      QueryBuilder.current_column s |})
      | Err e => Err e
      end) /\
  (forall (kv : string * value) (d : list (string * value)),
      QueryBuilder.build_query (VDict (kv :: d)) =
      match compile None (VDict (kv :: d)) with
      | Ok q => Ok (join " AND " q, bound (VDict (kv :: d)))
      | Err e => Err e
      end).
Proof.
  split; [apply Compile.build_runs | apply Compile.build_query_compile].
Qed.

(** ** Which filters compile *)

Module Acceptance.
Import QueryBuilder.

Lemma clause_verdict (col : option string) (k : string) (v : value) :
  (forall col, verdict (compile col v) col v) ->
  match compile_clause compile col k v with
  | Ok _ => grouped (VDict [(k, v)]) = true
            /\ violates col (VDict [(k, v)]) = false
  | Err AssertionError => violates col (VDict [(k, v)]) = true
  | Err AttributeError => grouped (VDict [(k, v)]) = false
  | Err _ => False
  end.
Proof.
  intros IH. unfold compile_clause.
  cbn [grouped violates forallb existsb].
  rewrite orb_false_r, andb_true_r.
  destruct (String.eqb k "$and") eqn:Hand;
    [| destruct (String.eqb k "$or") eqn:Hor;
       [| destruct (is_operator k) eqn:Hop;
          [| destruct (isinstance_dict v) eqn:Hdict ]]].
  - specialize (IH col). unfold verdict in IH.
    destruct (compile col v) as [q|[]]; exact IH.
  - specialize (IH col). unfold verdict in IH.
    destruct (compile col v) as [q|[]]; exact IH.
  - destruct col; [split|]; reflexivity.
  - destruct col; [reflexivity|].
    specialize (IH (Some k)). unfold verdict in IH.
    destruct (compile (Some k) v) as [q|[]]; exact IH.
  - split; reflexivity.
Qed.

Lemma entries_verdict (d : list (string * value)) :
  Forall (fun kv => forall col, verdict (compile col (snd kv)) col (snd kv)) d ->
  forall col, verdict (compile_entries compile col d) col (VDict d).
Proof.
  induction 1 as [|[k v] d Hv _ IH]; intros col.
  - split; reflexivity.
  - cbn [snd] in Hv. cbn [compile_entries]. unfold verdict.
    rewrite Faults.violates_dict, Faults.grouped_dict.
    pose proof (@clause_verdict col k v Hv) as Hc.
    specialize (IH col). unfold verdict in IH.
    destruct (compile_clause compile col k v) as [c|e].
    + destruct Hc as [-> ->].
      destruct (compile_entries compile col d) as [cs|[]]; exact IH.
    + destruct e; try exact Hc; now rewrite Hc.
Qed.

Lemma compile_verdict : forall w col, verdict (compile col w) col w.
Proof.
  induction w as [ | b | z | f | x | l | d IH ] using value_ind;
    try (intros col; reflexivity).
  intros col. now apply entries_verdict.
Qed.

End Acceptance.

(** ** Values and the query text *)

Module Rebinding.
Import QueryBuilder.

Lemma rebind_is_dict (x v : value) :
  isinstance_dict (rebind x v) = isinstance_dict v.
Proof. now destruct v. Qed.

Section rebinding.

Variable x : value.
Hypothesis Hx : isinstance_dict x = false.

Lemma compile_rebind : forall w col, compile col (rebind x w) = compile col w.
Proof.
  induction w as [ | b | z | f | y | l | d IH ] using value_ind;
    try reflexivity.
  intros col. cbn [rebind compile].
  induction IH as [|[k v] d Hv _ IHd]; [reflexivity|].
  cbn [snd] in Hv. cbn [map compile_entries]. rewrite IHd.
  replace (compile_clause compile col k _)
    with (compile_clause compile col k v); [reflexivity|].
  unfold compile_clause.
  destruct (String.eqb k "$and"); [now rewrite Hv|].
  destruct (String.eqb k "$or"); [now rewrite Hv|].
  destruct (is_operator k); [reflexivity|].
  destruct (isinstance_dict v) eqn:Hd.
  - now rewrite rebind_is_dict, Hd, Hv.
  - now rewrite Hx.
Qed.

Lemma bound_rebind : forall w, bound (rebind x w) = map (fun _ => x) (bound w).
Proof.
  induction w as [ | b | z | f | y | l | d IH ] using value_ind;
    try reflexivity.
  cbn [rebind bound].
  induction IH as [|[k v] d Hv _ IHd]; [reflexivity|].
  cbn [snd] in Hv. cbn [map flat_map]. rewrite IHd, map_app. f_equal.
  destruct (String.eqb k "$and"); [exact Hv|].
  destruct (String.eqb k "$or"); [exact Hv|].
  destruct (is_operator k); [reflexivity|].
  destruct (isinstance_dict v) eqn:Hd.
  - now rewrite rebind_is_dict, Hd.
  - now rewrite Hx.
Qed.

End rebinding.

End Rebinding.

(** X4: the bound values never reach the SQL text.  Replacing every value
    that a filter binds by another value [x] (not an object) leaves the
    compiled query and the exception, if any, as they are; the parameters
    are then [x], once for each value. *)
Theorem query_text_ignores_values :
  forall (x w : value),
    isinstance_dict x = false ->
    QueryBuilder.build_query (rebind x w) =
    match QueryBuilder.build_query w with
    | Ok (q, ps) => Ok (q, map (fun _ => x) ps)
    | Err e => Err e
    end.
Proof.
  intros x w Hx.
  destruct w as [ | b | z | f | y | l | [|[k v] d] ]; try reflexivity.
  - now destruct y.
  - now destruct l.
  - change (rebind x (VDict ((k, v) :: d)))
      with (VDict ((k, match rebind x (VDict [(k, v)]) with
                       | VDict [(_, v')] => v'
                       | _ => VNone
                       end)
                   :: match rebind x (VDict d) with
                      | VDict d' => d'
                      | _ => []
                      end)).
    rewrite !Compile.build_query_compile.
    change (VDict ((k, match rebind x (VDict [(k, v)]) with
                       | VDict [(_, v')] => v'
                       | _ => VNone
                       end)
                   :: match rebind x (VDict d) with
                      | VDict d' => d'
                      | _ => []
                      end))
      with (rebind x (VDict ((k, v) :: d))).
    rewrite (@Rebinding.compile_rebind x Hx), (@Rebinding.bound_rebind x Hx).
    now destruct (compile None (VDict ((k, v) :: d))).
Qed.

Lemma query_text_ignores_values_witness :
  let w := VDict [("age", VDict [("$gte", VInt 18)]); ("name", VStr "x")] in
  QueryBuilder.build_query w
  = Ok (quoted "age" ++ " >= %s AND name=%s", [VInt 18; VStr "x"]) /\
  QueryBuilder.build_query (rebind (VStr "'; DROP TABLE t; --") w)
  = Ok (quoted "age" ++ " >= %s AND name=%s",
        [VStr "'; DROP TABLE t; --"; VStr "'; DROP TABLE t; --"]).
Proof.
  intros w. split; [reflexivity|].
  rewrite (@query_text_ignores_values (VStr "'; DROP TABLE t; --") w);
    reflexivity.
Defined.

(** ** The conjunction of two filters *)

Module Merge.
Import QueryBuilder.






End Merge.



(** ** Valid identifiers and the columns of select *)

Module Identifiers.

Lemma check_cases (v : value) :
  check_valid_sql_ident v = Ok true \/ check_valid_sql_ident v = Ok false.
Proof.
  destruct v as [ | b | z | f | [|c s] | l | d ]; try (right; reflexivity).
  rewrite check_valid_sql_ident_str.
  destruct (isalnum c && ident_chars (String c s)); auto.
Qed.

Lemma check_true_str (v : value) :
  check_valid_sql_ident v = Ok true ->
  exists c s, v = VStr (String c s) /\ isalnum c = true
              /\ ident_chars (String c s) = true.
Proof.
  destruct v as [ | b | z | f | [|c s] | l | d ]; try discriminate.
  rewrite check_valid_sql_ident_str. intros H. injection H as H.
  apply andb_prop in H. eauto.
Qed.

Lemma ident_chars_Forall (s : string) :
  ident_chars s = true <-> Forall (fun x => ident_char x = true) (chars s).
Proof.
  unfold chars, ident_char.
  induction s as [|c s IH]; cbn [ident_chars list_ascii_of_string].
  - split; [constructor | reflexivity].
  - destruct (isalnum c || char_in c "_$") eqn:Hc; cbn [negb].
    + rewrite IH. split; [now constructor | now inversion 1].
    + split; [discriminate | inversion 1; congruence].
Qed.

Lemma select_columns_invalid (cols : list value) :
  Exists (fun c => check_valid_sql_ident c <> Ok true) cols ->
  select_columns cols = Err AssertionError.
Proof.
  induction cols as [|c cols IH]; intros H; [inversion H|].
  cbn [select_columns].
  destruct (check_cases c) as [Hc|Hc]; rewrite Hc; [|reflexivity].
  destruct (check_true_str _ Hc) as [a [s [-> _]]].
  inversion H as [? ? Hbad|? ? Hrest]; subst; [contradiction|].
  now rewrite (IH Hrest).
Qed.

Lemma select_columns_valid (cols : list value) :
  forall l,
    select_columns cols = Ok l ->
    exists names,
      cols = map VStr names /\ l = map quoted names /\
      Forall (fun n => check_valid_sql_ident (VStr n) = Ok true) names.
Proof.
  induction cols as [|c cols IH]; intros l H.
  - injection H as <-. exists []. repeat split. constructor.
  - cbn [select_columns] in H.
    destruct (check_cases c) as [Hc|Hc]; rewrite Hc in H; [|discriminate].
    destruct (check_true_str _ Hc) as [a [s [-> _]]].
    destruct (select_columns cols) as [l'|e]; [|discriminate].
    injection H as <-.
    destruct (IH l' eq_refl) as [names [-> [-> Hn]]].
    exists (String a s :: names). repeat split. now constructor.
Qed.

End Identifiers.

(** X6: [check_valid_sql_ident] returns [True] exactly on a str that is
    not empty, starts with an alphanumeric character and holds only
    alphanumeric characters, [_] and [$].  So an accepted identifier holds
    no double quote, quote, space, percent sign, semicolon, parenthesis or
    hyphen; and an identifier that starts with [_] or [$] is rejected. *)
Theorem check_valid_sql_ident_accepts_iff :
  (forall ident : value,
      check_valid_sql_ident ident = Ok true <->
      exists c s, ident = VStr (String c s) /\ isalnum c = true /\
                  Forall (fun x => ident_char x = true) (chars (String c s))) /\
  (forall s : string,
      check_valid_sql_ident (VStr s) = Ok true ->
      Forall (fun x => ~ In x (chars (dq ++ "' %;()-"))) (chars s)) /\
  (forall (c : ascii) (s : string),
      char_in c "_$" = true ->
      check_valid_sql_ident (VStr (String c s)) = Ok false).
Proof.
  split; [|split].
  - intros ident. split.
    + intros H. destruct (Identifiers.check_true_str _ H) as [c [s [-> [Hc Hs]]]].
      exists c, s. repeat split; [exact Hc|].
      now apply Identifiers.ident_chars_Forall.
    + intros [c [s [-> [Hc Hs]]]].
      apply Identifiers.ident_chars_Forall in Hs.
      now rewrite check_valid_sql_ident_str, Hc, Hs.
  - intros s H.
    destruct (Identifiers.check_true_str _ H) as [c [s' [E [_ Hs]]]].
    injection E as ->.
    apply Identifiers.ident_chars_Forall in Hs.
    eapply Forall_impl; [|exact Hs].
    intros x Hx Hin. cbn in Hin.
    repeat (destruct Hin as [<-|Hin]; [discriminate Hx|]).
    exact Hin.
  - intros c s Hc. rewrite check_valid_sql_ident_str.
    cbn in Hc. rewrite orb_false_r in Hc.
    apply orb_prop in Hc as [Hc|Hc]; apply Ascii.eqb_eq in Hc; subst;
      reflexivity.
Qed.

(** ** insert: which requests are served *)

Module InsertCases.
Import InsertBuilder.

Lemma rows_cases (rows : list value) :
  (exists rs, rows = map VDict rs)
  \/ Exists (fun r => isinstance_dict r = false) rows.
Proof.
  induction rows as [|r rows [[rs ->]|IH]].
  - left. now exists [].
  - destruct r as [ | | | | | | d ];
      try (right; constructor; reflexivity).
    left. now exists (d :: rs).
  - right. now constructor 2.
Qed.

Lemma add_not_dict (r : value) (s : t) :
  isinstance_dict r = false -> add r s = Err AttributeError.
Proof. destruct r; intros H; try reflexivity; discriminate H. Qed.

Lemma add_all_not_dict (rows : list value) :
  Exists (fun r => isinstance_dict r = false) rows ->
  forall s, add_all rows s = Err AttributeError.
Proof.
  induction 1 as [r rows Hr|r rows _ IH]; intros s; cbn [add_all]; unfold bind.
  - now rewrite add_not_dict.
  - destruct r as [ | | | | | | d ]; try reflexivity.
    rewrite InsertFacts.add_row. apply IH.
Qed.

End InsertCases.

(** X8: [insert] returns normally exactly when [values] is a row object or
    a list, not empty, of row objects.  On the empty list it raises
    [TypeError] (the column names are taken from a first row that does not
    exist); on any other value, and on a list with an element that is no
    object, it raises [AttributeError]. *)
Theorem insert_returns_iff :
  (forall (table : string) (values : value),
      (exists r, insert table values = Ok r) <->
      (isinstance_dict values = true \/
       exists r0 rs, values = VList (map VDict (r0 :: rs)))) /\
  (forall table : string, insert table (VList []) = Err TypeError) /\
  (forall (table : string) (rows : list value),
      Exists (fun r => isinstance_dict r = false) rows ->
      insert table (VList rows) = Err AttributeError) /\
  (forall (table : string) (values : value),
      isinstance_dict values = false -> (forall l, values <> VList l) ->
      insert table values = Err AttributeError).
Proof.
  assert (Hbad : forall table rows,
             Exists (fun r => isinstance_dict r = false) rows ->
             insert table (VList rows) = Err AttributeError).
  { intros table rows H. unfold insert.
    now rewrite (InsertCases.add_all_not_dict H). }
  assert (Hscalar : forall table values,
             isinstance_dict values = false -> (forall l, values <> VList l) ->
             insert table values = Err AttributeError).
  { intros table values Hd Hl.
    destruct values as [ | | | | | l | d ]; try reflexivity.
    - now destruct (Hl l).
    - discriminate Hd. }
  split; [|split; [reflexivity | split; assumption]].
  intros table values. split.
  - intros [r Hr]. destruct (isinstance_dict values) eqn:Hd; [now left|].
    right. destruct values as [ | | | | | l | d ];
      try (rewrite Hscalar in Hr; [discriminate | reflexivity | discriminate]).
    + destruct (InsertCases.rows_cases l) as [[[|r0 rs] ->]|Hl].
      * discriminate Hr.
      * now exists r0, rs.
      * rewrite (Hbad _ _ Hl) in Hr. discriminate Hr.
    + discriminate Hd.
  - intros [Hd|[r0 [rs ->]]].
    + destruct values as [ | | | | | | d ]; try discriminate Hd.
      unfold insert. rewrite InsertFacts.add_row. now eexists.
    + unfold insert. rewrite InsertFacts.add_all_rows. now eexists.
Qed.

(** X9: a single row object gives the SQL text and the parameters of the
    list that holds this row alone. *)
Theorem insert_row_as_singleton :
  forall (table : string) (d : list (string * value)),
    insert table (VDict d) = insert table (VList [VDict d]).
Proof.
  intros table d. unfold insert.
  change [VDict d] with (map VDict [d]).
  rewrite InsertFacts.add_row, InsertFacts.add_all_rows.
  cbn [InsertBuilder.params InsertBuilder.value_strs InsertBuilder.first_item
       InsertBuilder.init map List.concat app].
  now rewrite app_nil_r.
Qed.

(** ** sorted: the order of the keys in the request *)

Module KeyOrder.

Lemma ascii_compare_refl (a : ascii) : Ascii.compare a a = Eq.
Proof. unfold Ascii.compare. apply N.compare_refl. Qed.

Lemma ascii_compare_lt_trans (a b c : ascii) :
  Ascii.compare a b = Lt -> Ascii.compare b c = Lt -> Ascii.compare a c = Lt.
Proof.
  unfold Ascii.compare. rewrite !N.compare_lt_iff. apply N.lt_trans.
Qed.

Lemma compare_lt_trans (a : string) :
  forall b c,
    String.compare a b = Lt -> String.compare b c = Lt ->
    String.compare a c = Lt.
Proof.
  induction a as [|x a IH]; intros [|y b] [|z c]; cbn; try easy.
  destruct (Ascii.compare x y) eqn:Hxy; try discriminate;
    destruct (Ascii.compare y z) eqn:Hyz; try discriminate.
  - apply Ascii.compare_eq_iff in Hxy, Hyz. subst.
    rewrite ascii_compare_refl. apply IH.
  - apply Ascii.compare_eq_iff in Hxy. subst. now rewrite Hyz.
  - apply Ascii.compare_eq_iff in Hyz. subst. now rewrite Hxy.
  - now rewrite (ascii_compare_lt_trans _ _ _ Hxy Hyz).
Qed.

Lemma leb_trans (a b c : string) :
  String.leb a b = true -> String.leb b c = true -> String.leb a c = true.
Proof.
  unfold String.leb.
  destruct (String.compare a b) eqn:Hab; try discriminate;
    destruct (String.compare b c) eqn:Hbc; try discriminate; intros _ _.
  - apply String.compare_eq_iff in Hab. subst. now rewrite Hbc.
  - apply String.compare_eq_iff in Hab. subst. now rewrite Hbc.
  - apply String.compare_eq_iff in Hbc. subst. now rewrite Hab.
  - now rewrite (compare_lt_trans _ _ _ Hab Hbc).
Qed.

Lemma key_le_trans (x y z : string * value) :
  key_le x y -> key_le y z -> key_le x z.
Proof. apply leb_trans. Qed.

Lemma sorted_strongly (l : list (string * value)) :
  StronglySorted key_le (sorted l).
Proof.
  apply Sorted_StronglySorted; [exact key_le_trans|].
  apply InsertFacts.sorted_sorted.
Qed.

(** Two lists of items in the order of their keys, with the same items and
    no key twice, are the same list. *)
Lemma strongly_sorted_unique (l1 : list (string * value)) :
  forall l2,
    StronglySorted key_le l1 -> StronglySorted key_le l2 ->
    NoDup (map fst l1) -> Permutation l1 l2 -> l1 = l2.
Proof.
  induction l1 as [|x l1 IH]; intros l2 S1 S2 N P.
  - now apply Permutation_nil in P.
  - destruct l2 as [|y l2];
      [apply Permutation_sym, Permutation_nil in P; discriminate|].
    apply StronglySorted_inv in S1 as [S1 F1].
    apply StronglySorted_inv in S2 as [S2 F2].
    cbn [map] in N. apply NoDup_cons_iff in N as [Nx N].
    assert (E : x = y).
    { assert (Hx : In x (y :: l2))
        by (eapply Permutation_in; [exact P | now left]).
      assert (Hy : In y (x :: l1))
        by (eapply Permutation_in;
            [apply Permutation_sym; exact P | now left]).
      destruct Hx as [->|Hx]; [reflexivity|].
      destruct Hy as [->|Hy]; [reflexivity|].
      rewrite Forall_forall in F1, F2.
      pose proof (String.leb_antisym _ _ (F1 _ Hy) (F2 _ Hx)) as Ek.
      exfalso. apply Nx. rewrite Ek. now apply in_map. }
    subst y. f_equal.
    apply IH; try assumption.
    now apply Permutation_cons_inv in P.
Qed.

Lemma sorted_of_permutation (d1 d2 : list (string * value)) :
  NoDup (map fst d1) -> Permutation d1 d2 -> sorted d1 = sorted d2.
Proof.
  intros N P.
  apply strongly_sorted_unique; try apply sorted_strongly.
  - eapply Permutation_NoDup; [|exact N].
    apply Permutation_map, Permutation_sym, InsertFacts.sorted_perm.
  - eapply perm_trans; [apply InsertFacts.sorted_perm|].
    eapply perm_trans; [exact P|].
    apply Permutation_sym, InsertFacts.sorted_perm.
Qed.

End KeyOrder.

(** X10: the order in which a request lists the keys of an object of
    values does not matter.  For two objects with the same entries in
    another order (no key twice, as in every dict), [sorted] gives the same
    list, and [insert], [update] and [tables_create] give the same SQL text
    and parameters. *)
Theorem key_order_is_irrelevant :
  forall (d1 d2 : list (string * value)),
    NoDup (map fst d1) -> Permutation d1 d2 ->
    sorted d1 = sorted d2 /\
    (forall table, insert table (VDict d1) = insert table (VDict d2)) /\
    (forall table w, update table w (VDict d1) = update table w (VDict d2)) /\
    (forall str table,
        tables_create str table (VDict d1) = tables_create str table (VDict d2)).
Proof.
  intros d1 d2 N P.
  pose proof (KeyOrder.sorted_of_permutation N P) as E.
  split; [exact E|]. split; [|split].
  - intros table. unfold insert.
    rewrite !InsertFacts.add_row.
    now rewrite E, (Permutation_length P).
  - intros table w. unfold update. cbn [items]. now rewrite E.
  - intros str table. unfold tables_create. cbn [items]. now rewrite E.
Qed.

Lemma key_order_is_irrelevant_witness :
  let d1 := [("b", VInt 2); ("a", VInt 1)] in
  let d2 := [("a", VInt 1); ("b", VInt 2)] in
  sorted d1 = sorted d2 /\
  insert "t" (VDict d1)
  = Ok ("INSERT INTO t (" ++ quoted "a" ++ "," ++ quoted "b"
          ++ ") VALUES (%s,%s) RETURNING *", [VInt 1; VInt 2]) /\
  insert "t" (VDict d1) = insert "t" (VDict d2).
Proof.
  intros d1 d2.
  assert (N : NoDup (map fst d1)).
  { repeat constructor; cbn; intuition discriminate. }
  assert (P : Permutation d1 d2) by apply perm_swap.
  split; [exact (proj1 (@key_order_is_irrelevant d1 d2 N P))|].
  split; [reflexivity|].
  exact (proj1 (proj2 (@key_order_is_irrelevant d1 d2 N P)) "t").
Defined.

(** ** The statements of the handlers and their parameters *)

Module Statements.
Import Placeholders.

Section statements.

Variable render : value -> string.

Lemma plain_clean (a : string) : plain a = true -> no_placeholder a = true.
Proof.
  unfold no_placeholder. induction a as [|c a IH]; [reflexivity|].
  cbn [plain count_placeholders]. intros H.
  apply andb_prop in H as [Hc Ha].
  apply negb_true_iff in Hc. rewrite Hc. now apply IH.
Qed.

Lemma sub_plain (a b b' : string) (ps r : list value) :
  plain a = true ->
  substitute render b ps = Some (b', r) ->
  substitute render (a ++ b) ps = Some (a ++ b', r).
Proof.
  intros Ha Hb. induction a as [|c a IH]; [exact Hb|].
  cbn [plain] in Ha. apply andb_prop in Ha as [Hc Ha].
  apply negb_true_iff in Hc.
  cbn [append substitute]. now rewrite Hc, (IH Ha).
Qed.

Lemma sub_plain_end (a : string) (ps : list value) :
  plain a = true -> substitute render a ps = Some (a, ps).
Proof. intros Ha. now apply substitute_clean, plain_clean. Qed.

Lemma sub_app (f f' b b' : string) (ps ps' r : list value) :
  substitute render f ps = Some (f', ps') ->
  starts_with_s b = false ->
  substitute render b ps' = Some (b', r) ->
  substitute render (f ++ b) ps = Some (f' ++ b', r).
Proof.
  intros Hf Hs Hb. now rewrite (@substitute_app render f ps f' ps' Hf b Hs), Hb.
Qed.

Lemma separator_comma : separator render ",".
Proof.
  split; [reflexivity|]. intros x ps. cbn.
  now destruct (substitute render x ps) as [[y z]|].
Qed.

(** A quoted name without [%s] holds no placeholder. *)
Lemma sub_quoted (k : string) (ps : list value) :
  no_placeholder k = true ->
  substitute render (quoted k) ps = Some (quoted k, ps).
Proof.
  intros Hk. unfold quoted, dq.
  apply (sub_plain (String (ascii_of_nat 34) "")); [reflexivity|].
  apply sub_app with (ps' := ps);
    [now apply substitute_clean | reflexivity | reflexivity].
Qed.

Lemma sub_all_quoted (ks : list string) (ps : list value) :
  Forall (fun k => no_placeholder k = true) ks ->
  substitute_all render (map quoted ks) ps = Some (map quoted ks, ps).
Proof.
  induction 1 as [|k ks Hk _ IH]; [reflexivity|].
  cbn [map]. now rewrite substitute_all_cons, (@sub_quoted k ps Hk), IH.
Qed.

(** The query of a filter, filled with its parameters. *)
Lemma query_fills (w : value) (q : string) (ps : list value) :
  keys_clean w = true ->
  QueryBuilder.build_query w = Ok (q, ps) ->
  substitute render q ps = Some (literal_query render w, []).
Proof.
  intros Hk Hq.
  destruct w as [ | b | z | f | x | l | [|kv d] ];
    try discriminate Hq;
    try (injection Hq as <- <-; reflexivity).
  - destruct x; [injection Hq as <- <-; reflexivity | discriminate Hq].
  - destruct l; [injection Hq as <- <-; reflexivity | discriminate Hq].
  - rewrite Faults.build_query_dict in Hq.
    destruct (QueryBuilder.build (VDict (kv :: d)) QueryBuilder.init)
      as [[fr s]|e] eqn:Hb; [|discriminate].
    injection Hq as <- <-.
    destruct (build_fills render (VDict (kv :: d))
                QueryBuilder.init Hk I Hb) as [new [Hp Hsub]].
    cbn in Hp. rewrite Hp.
    specialize (Hsub []). rewrite app_nil_r in Hsub.
    apply (substitute_join (separator_and render)), Hsub.
Qed.

(** The WHERE clause and what follows it, filled with the parameters of
    the filter. *)
Lemma sub_where (b : bool) (q lit tail : string) (ps : list value) :
  substitute render q ps = Some (lit, []) ->
  (b = false -> ps = []) ->
  plain tail = true -> starts_with_s tail = false ->
  substitute render (where_str b q ++ tail) ps
  = Some (where_str b lit ++ tail, []).
Proof.
  intros Hq Hb Ht Hs. destruct b; cbn [where_str append].
  - rewrite !append_assoc.
    apply (sub_plain "WHERE ("); [reflexivity|].
    apply sub_app with (ps' := []); [exact Hq | reflexivity|].
    apply (sub_plain ") "); [reflexivity|]. now apply sub_plain_end.
  - rewrite (Hb eq_refl). now apply sub_plain_end.
Qed.

(** The assignments of [update], filled with the sorted values. *)
Lemma sub_assignments (vals : list (string * value)) (rest : list value) :
  Forall (fun kv => no_placeholder (fst kv) = true) vals ->
  substitute_all render (map (fun x => quoted (fst x) ++ " = %s") vals)
                 (map snd vals ++ rest)
  = Some (map (fun x => quoted (fst x) ++ " = " ++ render (snd x)) vals, rest).
Proof.
  induction 1 as [|[k v] vals Hk _ IH]; [reflexivity|].
  cbn [map app fst snd]. rewrite substitute_all_cons.
  pose proof (@substitute_op render k "$eq" "=" v (map snd vals ++ rest)
                Hk eq_refl) as E.
  cbn [append] in E. cbn [append]. rewrite E. now rewrite IH.
Qed.

(** A tuple of placeholders, filled with as many values. *)
Lemma sub_tuple (vs rest : list value) :
  substitute render (placeholder_tuple (List.length vs)) (vs ++ rest)
  = Some ("(" ++ join "," (map render vs) ++ ")", rest).
Proof.
  unfold placeholder_tuple.
  apply (sub_plain "("); [reflexivity|].
  apply sub_app with (ps' := rest); [|reflexivity|reflexivity].
  apply (substitute_join separator_comma).
  induction vs as [|v vs IH]; [reflexivity|].
  cbn [List.length repeat map app]. rewrite substitute_all_cons.
  cbn [substitute Ascii.eqb Bool.eqb on_fst]. rewrite append_nil_r.
  now rewrite IH.
Qed.

(** The tuples of [insert], filled with the values of the rows. *)
Lemma sub_tuples (rows : list (list (string * value))) (rest : list value) :
  substitute_all render
    (map (fun r => placeholder_tuple (List.length r)) rows)
    (List.concat (map (fun r => map snd (sorted r)) rows) ++ rest)
  = Some (map (fun r => "(" ++ join "," (map render (map snd (sorted r)))
                          ++ ")") rows, rest).
Proof.
  induction rows as [|r rows IH]; [reflexivity|].
  cbn [map List.concat]. rewrite substitute_all_cons, <- app_assoc.
  rewrite <- (InsertFacts.sorted_length r), <- (length_map snd (sorted r)).
  now rewrite sub_tuple, IH.
Qed.

End statements.

End Statements.

(** X11: in the statement of [update] the values to set come first and
    the parameters of the filter after them.  When neither the table name
    nor a column name holds [%s], the text has as many placeholders as
    there are parameters, and filling them from the left puts each new
    value at its own assignment, in the order of the sorted keys, and each
    filter value at its own place in the WHERE clause. *)
Theorem update_parameters_aligned :
  forall (render : value -> string) (table : string) (w : value)
         (d : list (string * value)) (q : string) (ps : list value),
    no_placeholder table = true ->
    Forall (fun kv => no_placeholder (fst kv) = true) d ->
    keys_clean w = true ->
    QueryBuilder.build_query w = Ok (q, ps) ->
    exists sql,
      update table w (VDict d) = Ok (sql, (map snd (sorted d) ++ ps)%list) /\
      count_placeholders sql = List.length (map snd (sorted d) ++ ps)%list /\
      substitute render sql (map snd (sorted d) ++ ps)%list
      = Some ("UPDATE " ++ table ++ " SET "
                ++ join "," (map (fun x => quoted (fst x) ++ " = "
                                             ++ render (snd x)) (sorted d))
                ++ " "
                ++ where_str (Nat.ltb 0 (String.length q))
                             (literal_query render w)
                ++ "RETURNING *", []).
Proof.
  intros render table w d q ps Ht Hd Hk Hq.
  unfold update. cbn [items]. rewrite Hq. cbv zeta.
  eexists. split; [reflexivity|].
  match goal with
  | |- _ /\ substitute _ ?s ?p = Some (?l, _) =>
      enough (Hs : substitute render s p = Some (l, []))
  end.
  { split; [|exact Hs].
    apply Placeholders.substitute_count in Hs.
    now rewrite Hs, Nat.add_0_r. }
  pose proof (Statements.query_fills render w Hk Hq) as Hf.
  assert (Hsorted : Forall (fun kv => no_placeholder (fst kv) = true) (sorted d)).
  { eapply Permutation_Forall; [|exact Hd].
    apply Permutation_sym, InsertFacts.sorted_perm. }
  apply (Statements.sub_plain render "UPDATE "); [reflexivity|].
  apply Statements.sub_app with (ps' := (map snd (sorted d) ++ ps)%list);
    [now apply Placeholders.substitute_clean | reflexivity |].
  apply (Statements.sub_plain render " SET "); [reflexivity|].
  apply Statements.sub_app with (ps' := ps); [|reflexivity|].
  { apply (Placeholders.substitute_join (Statements.separator_comma render)).
    now apply Statements.sub_assignments. }
  apply (Statements.sub_plain render " "); [reflexivity|].
  apply (@Statements.sub_where render (Nat.ltb 0 (String.length q)) q
           (literal_query render w) "RETURNING *" ps);
    [exact Hf | | reflexivity | reflexivity].
  destruct q; [|discriminate]. intros _.
  cbn in Hf. now injection Hf as _ ->.
Qed.

Lemma update_parameters_aligned_witness :
  let render := fun v => match v with
                         | VInt z => if Z.eqb z 7 then "7" else "9"
                         | _ => "'x'"
                         end in
  let w := VDict [("id", VInt 7)] in
  let d := [("n", VInt 9); ("c", VStr "x")] in
  exists sql,
    update "t" w (VDict d)
    = Ok (sql, (map snd (sorted d) ++ [VInt 7])%list) /\
    count_placeholders sql = List.length (map snd (sorted d) ++ [VInt 7])%list /\
    substitute render sql (map snd (sorted d) ++ [VInt 7])%list
    = Some ("UPDATE t SET " ++ quoted "c" ++ " = 'x'," ++ quoted "n"
              ++ " = 9 WHERE (id=7) RETURNING *", []).
Proof.
  intros render w d.
  apply (@update_parameters_aligned render "t" w d "id=%s" [VInt 7]);
    try reflexivity.
  repeat constructor.
Defined.

(** X12: the statement of [insert] for the rows [r0 :: rs].  When neither
    the table name nor a key of the first row holds [%s], the text has as
    many placeholders as there are parameters, whatever keys the later
    rows have, and filling them from the left gives one tuple for each
    row, with the values of that row in the order of its sorted keys. *)
Theorem insert_parameters_aligned :
  forall (render : value -> string) (table : string)
         (r0 : list (string * value)) (rs : list (list (string * value))),
    no_placeholder table = true ->
    Forall (fun kv => no_placeholder (fst kv) = true) r0 ->
    exists sql params,
      insert table (VList (map VDict (r0 :: rs))) = Ok (sql, params) /\
      count_placeholders sql = List.length params /\
      substitute render sql params
      = Some ("INSERT INTO " ++ table
                ++ " (" ++ join "," (map quoted (map fst (sorted r0))) ++ ") "
                ++ "VALUES "
                ++ join "," (map (fun r => "(" ++ join ","
                                     (map render (map snd (sorted r))) ++ ")")
                                 (r0 :: rs))
                ++ " RETURNING *", []).
Proof.
  intros render table r0 rs Ht Hr.
  unfold insert. rewrite InsertFacts.add_all_rows.
  unfold InsertBuilder.names, InsertBuilder.values.
  cbn [InsertBuilder.first_item InsertBuilder.value_strs
       InsertBuilder.params InsertBuilder.init app].
  rewrite <- map_map.
  eexists _, _. split; [reflexivity|].
  match goal with
  | |- _ /\ substitute _ ?s ?p = Some (?l, _) =>
      enough (Hs : substitute render s p = Some (l, []))
  end.
  { split; [|exact Hs].
    apply Placeholders.substitute_count in Hs.
    now rewrite Hs, Nat.add_0_r. }
  assert (Hsorted : Forall (fun k => no_placeholder k = true)
                           (map fst (sorted r0))).
  { apply Forall_map. eapply Permutation_Forall; [|exact Hr].
    apply Permutation_sym, InsertFacts.sorted_perm. }
  set (params := List.concat (map (fun r => map snd (sorted r)) (r0 :: rs))).
  apply (Statements.sub_plain render "INSERT INTO "); [reflexivity|].
  apply Statements.sub_app with (ps' := params);
    [now apply Placeholders.substitute_clean | reflexivity |].
  apply (Statements.sub_plain render " ("); [reflexivity|].
  apply Statements.sub_app with (ps' := params); [|reflexivity|].
  { apply (Placeholders.substitute_join (Statements.separator_comma render)).
    now apply Statements.sub_all_quoted. }
  apply (Statements.sub_plain render ") VALUES "); [reflexivity|].
  apply Statements.sub_app with (ps' := []); [|reflexivity|reflexivity].
  apply (Placeholders.substitute_join (Statements.separator_comma render)).
  unfold params. rewrite <- (app_nil_r (List.concat _)).
  apply Statements.sub_tuples.
Qed.

Lemma insert_parameters_aligned_witness :
  let render := fun v => match v with
                         | VInt z => if Z.eqb z 1 then "1" else "2"
                         | _ => "'x'"
                         end in
  exists sql params,
    insert "t" (VList (map VDict [[("b", VInt 2); ("a", VInt 1)];
                                  [("c", VStr "x")]]))
    = Ok (sql, params) /\
    count_placeholders sql = List.length params /\
    substitute render sql params
    = Some ("INSERT INTO t (" ++ quoted "a" ++ "," ++ quoted "b"
              ++ ") VALUES (1,2),('x') RETURNING *", []).
Proof.
  intros render.
  apply (@insert_parameters_aligned render "t"
           [("b", VInt 2); ("a", VInt 1)] [[("c", VStr "x")]]);
    [reflexivity | repeat constructor].
Defined.

(** ** delete and select *)

Module Where.

Lemma build_query_params (w : value) (q : string) (ps : list value) :
  QueryBuilder.build_query w = Ok (q, ps) -> ps = bound w.
Proof.
  destruct (isinstance_dict w) eqn:Hw.
  - destruct w as [ | | | | | | [|kv d] ]; try discriminate Hw.
    + intros H. now injection H as _ <-.
    + rewrite Compile.build_query_compile.
      destruct (compile None (VDict (kv :: d))); [|discriminate].
      intros H. now injection H as _ <-.
  - rewrite (Compile.build_query_not_dict _ Hw).
    destruct w as [ | b | z | f | x | l | d ]; try discriminate.
    + intros H. now injection H as _ <-.
    + destruct x; [|discriminate]. intros H. now injection H as _ <-.
    + destruct l; [|discriminate]. intros H. now injection H as _ <-.
Qed.

(** A valid identifier holds no percent sign. *)
Lemma ident_chars_plain (s : string) : ident_chars s = true -> plain s = true.
Proof.
  induction s as [|c s IH]; [reflexivity|]. cbn [ident_chars plain].
  destruct (isalnum c || char_in c "_$") eqn:Hc; [|discriminate].
  cbn [negb]. intros H. rewrite (IH H), andb_true_r.
  destruct (Ascii.eqb_spec c "%"); [subst; discriminate Hc | reflexivity].
Qed.

Lemma valid_ident_clean (n : string) :
  check_valid_sql_ident (VStr n) = Ok true -> no_placeholder n = true.
Proof.
  intros H. destruct (Identifiers.check_true_str _ H) as [c [s [E [_ Hs]]]].
  injection E as ->. now apply Statements.plain_clean, ident_chars_plain.
Qed.

(** The column list of [select] holds no placeholder. *)
Lemma columns_clean (render : value -> string) (columns : value)
      (cs : string) (ps : list value) :
  select_columns_str columns = Ok cs ->
  substitute render cs ps = Some (cs, ps).
Proof.
  destruct columns as [ | b | z | f | x | l | d ]; try discriminate.
  - intros H. now injection H as <-.
  - cbn [select_columns_str].
    destruct (select_columns l) as [qs|e] eqn:Hl; [|discriminate].
    intros H. injection H as <-.
    destruct (Identifiers.select_columns_valid _ Hl) as [names [_ [-> Hn]]].
    apply (Placeholders.substitute_join (Statements.separator_comma render)).
    apply Statements.sub_all_quoted.
    eapply Forall_impl; [|exact Hn]. apply valid_ident_clean.
Qed.

End Where.

(** X13: the statements of [delete] and [select].  When neither the table
    name nor a column name of the filter holds [%s] (the columns of
    [select] cannot, being valid identifiers), the text has as many
    placeholders as there are parameters, and filling them from the left
    puts each filter value at its own place in the WHERE clause. *)
Theorem delete_select_parameters_aligned :
  forall (render : value -> string) (table : string) (w : value)
         (q : string) (ps : list value),
    no_placeholder table = true ->
    keys_clean w = true ->
    QueryBuilder.build_query w = Ok (q, ps) ->
    (exists sql,
        delete table w = Ok (sql, ps) /\
        count_placeholders sql = List.length ps /\
        substitute render sql ps
        = Some ("DELETE FROM " ++ table ++ " "
                  ++ where_str (Nat.ltb 0 (List.length ps))
                               (literal_query render w)
                  ++ " RETURNING *", [])) /\
    (forall (columns : value) (cs : string),
        select_columns_str columns = Ok cs ->
        exists sql,
          select table w columns = Ok (sql, ps) /\
          count_placeholders sql = List.length ps /\
          substitute render sql ps
          = Some (if Nat.ltb 0 (List.length ps)
                  then ("SELECT " ++ cs ++ " FROM " ++ table)
                         ++ " WHERE (" ++ literal_query render w ++ ")"
                  else "SELECT " ++ cs ++ " FROM " ++ table, [])).
Proof.
  intros render table w q ps Ht Hk Hq.
  pose proof (Statements.query_fills render w Hk Hq) as Hf.
  assert (Hcount : forall sql l,
             substitute render sql ps = Some (l, []) ->
             count_placeholders sql = List.length ps).
  { intros sql l Hs. apply Placeholders.substitute_count in Hs.
    now rewrite Hs, Nat.add_0_r. }
  split.
  - unfold delete. rewrite Hq. cbv zeta.
    eexists. split; [reflexivity|].
    match goal with
    | |- _ /\ ?G => assert (Hs : G); [|split; [eapply Hcount, Hs | exact Hs]]
    end.
    apply (Statements.sub_plain render "DELETE FROM "); [reflexivity|].
    apply Statements.sub_app with (ps' := ps);
      [now apply Placeholders.substitute_clean | reflexivity |].
    apply (Statements.sub_plain render " "); [reflexivity|].
    apply (@Statements.sub_where render (Nat.ltb 0 (List.length ps)) q
             (literal_query render w) " RETURNING *" ps);
      [exact Hf | | reflexivity | reflexivity].
    now destruct ps.
  - intros columns cs Hc. unfold select. rewrite Hc, Hq. cbv zeta.
    eexists. split; [reflexivity|].
    match goal with
    | |- _ /\ ?G => assert (Hs : G); [|split; [eapply Hcount, Hs | exact Hs]]
    end.
    destruct ps as [|p ps]; cbn [List.length Nat.ltb Nat.leb].
    + apply (Statements.sub_plain render "SELECT "); [reflexivity|].
      apply Statements.sub_app with (ps' := []);
        [now apply (Where.columns_clean render columns) | reflexivity |].
      apply (Statements.sub_plain render " FROM "); [reflexivity|].
      now apply Placeholders.substitute_clean.
    + rewrite !Placeholders.append_assoc.
      apply (Statements.sub_plain render "SELECT "); [reflexivity|].
      apply Statements.sub_app with (ps' := (p :: ps));
        [now apply (Where.columns_clean render columns) | reflexivity |].
      apply (Statements.sub_plain render " FROM "); [reflexivity|].
      apply Statements.sub_app with (ps' := (p :: ps));
        [now apply Placeholders.substitute_clean | reflexivity |].
      apply (Statements.sub_plain render " WHERE ("); [reflexivity|].
      apply Statements.sub_app with (ps' := []);
        [exact Hf | reflexivity | reflexivity].
Qed.

Lemma delete_select_parameters_aligned_witness :
  let render := fun v => match v with VInt _ => "7" | _ => "'x'" end in
  let w := VDict [("id", VInt 7)] in
  (exists sql,
      delete "t" w = Ok (sql, [VInt 7]) /\
      count_placeholders sql = 1 /\
      substitute render sql [VInt 7]
      = Some ("DELETE FROM t WHERE (id=7)  RETURNING *", [])) /\
  (exists sql,
      select "t" w (VList [VStr "a"; VStr "b"]) = Ok (sql, [VInt 7]) /\
      count_placeholders sql = 1 /\
      substitute render sql [VInt 7]
      = Some ("SELECT " ++ quoted "a" ++ "," ++ quoted "b"
                ++ " FROM t WHERE (id=7)", [])).
Proof.
  intros render w.
  pose proof (@delete_select_parameters_aligned render "t" w "id=%s" [VInt 7]
                eq_refl eq_refl eq_refl) as [Hd Hs].
  split; [exact Hd|].
  exact (Hs (VList [VStr "a"; VStr "b"]) _ eq_refl).
Defined.

(** X14: [delete] and [select] write the WHERE clause exactly when the
    filter binds a value.  A filter that compiles and binds none (it holds
    only empty groups and empty column scopes) gives the statement without
    WHERE, as the empty filter does; every other filter that compiles
    gives the statement with its query in the WHERE clause and the bound
    values as parameters. *)
Theorem where_clause_iff_bound_values :
  forall (table : string) (w : value) (q : string) (ps : list value),
    QueryBuilder.build_query w = Ok (q, ps) ->
    ps = bound w /\
    (bound w = [] ->
     delete table w = Ok ("DELETE FROM " ++ table ++ "  RETURNING *", []) /\
     forall columns cs,
       select_columns_str columns = Ok cs ->
       select table w columns = Ok ("SELECT " ++ cs ++ " FROM " ++ table, [])) /\
    (bound w <> [] ->
     delete table w
     = Ok ("DELETE FROM " ++ table ++ " WHERE (" ++ q ++ ")  RETURNING *",
           bound w) /\
     forall columns cs,
       select_columns_str columns = Ok cs ->
       select table w columns
       = Ok (("SELECT " ++ cs ++ " FROM " ++ table) ++ " WHERE (" ++ q ++ ")",
             bound w)).
Proof.
  intros table w q ps Hq.
  pose proof (Where.build_query_params _ Hq) as E. subst ps.
  split; [reflexivity|]. unfold delete, select. rewrite Hq. split.
  - intros ->. split; [reflexivity|].
    intros columns cs ->. reflexivity.
  - intros Hb. destruct (bound w) as [|p ps]; [contradiction|].
    split.
    + cbn [List.length Nat.ltb Nat.leb]. cbv zeta.
      now rewrite !Placeholders.append_assoc.
    + intros columns cs ->. reflexivity.
Qed.

Lemma where_clause_iff_bound_values_witness :
  let w := VDict [("id", VDict []); ("$and", VDict [])] in
  QueryBuilder.build_query w = Ok (" AND ", []) /\
  delete "t" w = Ok ("DELETE FROM t  RETURNING *", []).
Proof.
  intros w. split; [reflexivity|].
  exact (proj1 (proj1 (proj2 (@where_clause_iff_bound_values "t" w " AND " []
                                eq_refl)) eq_refl)).
Defined.

(** * The builder on a bounded call stack *)

Module StackFacts.

Lemma stack_build_dict (n : nat) (d : list (string * value)) :
  Stack.build n (VDict d) = Stack.loop Stack.build n d [].
Proof. reflexivity. Qed.

Lemma stack_loop_cons (n : nat) (k : string) (v : value)
      (d : list (string * value)) (q : list string) (s : QueryBuilder.t) :
  Stack.loop Stack.build n ((k, v) :: d) q s =
  match Stack.clause Stack.build n k v s with
  | Ok (c, s1) => Stack.loop Stack.build n d (q ++ [c]) s1
  | Err e => Err e
  end.
Proof. reflexivity. Qed.

Lemma stack_loop_app (n : nat) (d1 d2 : list (string * value)) :
  forall (q : list string) (s : QueryBuilder.t),
    Stack.loop Stack.build n (d1 ++ d2) q s =
    match Stack.loop Stack.build n d1 q s with
    | Ok (q1, s1) => Stack.loop Stack.build n d2 q1 s1
    | Err e => Err e
    end.
Proof.
  induction d1 as [|[k v] d1 IH]; intros q s.
  - reflexivity.
  - cbn [app]. rewrite !stack_loop_cons.
    destruct (Stack.clause Stack.build n k v s) as [[c s1]|e]; [|reflexivity].
    apply IH.
Qed.

(** The entries after the entries [pre] are compiled in the state that
    [pre] leaves. *)
Lemma build_app (n : nat) (pre d : list (string * value))
      (s : QueryBuilder.t) :
  Stack.build n (VDict (pre ++ d)) s =
  match Stack.build n (VDict pre) s with
  | Ok (q, s1) => Stack.loop Stack.build n d q s1
  | Err e => Err e
  end.
Proof. rewrite !stack_build_dict. apply stack_loop_app. Qed.

Lemma stack_group_with_eq (n : nat) (v : value) (action : string)
      (s : QueryBuilder.t) :
  Stack.group_with Stack.build n v action s =
  match n with
  | S (S m) =>
      match Stack.build m v s with
      | Ok (q, s') => Ok (join (" " ++ action ++ " ") q, s')
      | Err e => Err e
      end
  | _ => Err RecursionError
  end.
Proof.
  destruct n as [|[|m]]; reflexivity.
Qed.

Lemma stack_op_eq (n : nat) (k : string) (v : value) (s : QueryBuilder.t) :
  Stack.op n k v s =
  match n with
  | 0 => Err RecursionError
  | S _ => QueryBuilder.op k v s
  end.
Proof. now destruct n. Qed.

Lemma stack_column_scope_eq (n : nat) (k : string) (v : value)
      (s : QueryBuilder.t) :
  String.eqb k "$and" = false -> String.eqb k "$or" = false ->
  QueryBuilder.is_operator k = false -> isinstance_dict v = true ->
  Stack.clause Stack.build n k v s =
  match QueryBuilder.current_column s with
  | Some _ => Err AssertionError
  | None =>
      match n with
      | S (S m) =>
          match Stack.build m v
                  {| QueryBuilder.params := QueryBuilder.params s;
                     QueryBuilder.current_column := Some k |} with
          | Ok (q, s') =>
              Ok (join " AND " q,
                  {| QueryBuilder.params := QueryBuilder.params s';
                     QueryBuilder.current_column := None |})
          | Err e => Err e
          end
      | _ => Err RecursionError
      end
  end.
Proof.
  intros Hand Hor Hop Hdict. unfold Stack.clause.
  rewrite Hand, Hor, Hop, Hdict.
  unfold QueryBuilder.set_current_column. unfold bind at 1. unfold get.
  destruct (QueryBuilder.current_column s) eqn:Hc; [reflexivity|].
  unfold bind at 1. unfold modify at 1.
  unfold bind at 1. rewrite stack_group_with_eq.
  destruct n as [|[|m]]; try reflexivity.
  destruct (Stack.build m v _) as [[q s']|e]; reflexivity.
Qed.

Lemma scalar_eq (n : nat) (k : string) (v : value) (s : QueryBuilder.t) :
  String.eqb k "$and" = false -> String.eqb k "$or" = false ->
  QueryBuilder.is_operator k = false -> isinstance_dict v = false ->
  Stack.clause Stack.build n k v s = QueryBuilder.clause QueryBuilder.build k v s.
Proof.
  intros Hand Hor Hop Hdict. unfold Stack.clause, QueryBuilder.clause.
  now rewrite Hand, Hor, Hop, Hdict.
Qed.

Lemma is_operator_not_logical (k : string) :
  QueryBuilder.is_operator k = true ->
  String.eqb k "$and" = false /\ String.eqb k "$or" = false.
Proof.
  intros H. split.
  - destruct (String.eqb_spec k "$and"); [subst; discriminate H | reflexivity].
  - destruct (String.eqb_spec k "$or"); [subst; discriminate H | reflexivity].
Qed.

(** The height of one entry and of the rest. *)
Lemma height_dict (k : string) (v : value) (d : list (string * value)) :
  height (VDict ((k, v) :: d))
  = Nat.max (height (VDict [(k, v)])) (height (VDict d)).
Proof.
  cbn [height map]. unfold list_max. cbn [fold_right].
  now rewrite Nat.max_0_r.
Qed.

Lemma height_entry (k : string) (v : value) :
  height (VDict [(k, v)])
  = if String.eqb k "$and" then 2 + height v
    else if String.eqb k "$or" then 2 + height v
    else if QueryBuilder.is_operator k then 1
    else if isinstance_dict v then 2 + height v
    else 0.
Proof.
  cbn [height map]. unfold list_max. cbn [fold_right]. apply Nat.max_0_r.
Qed.

(** With frames for the whole filter, the run is that of
    [QueryBuilder.build]. *)
Lemma clause_enough (n : nat) (k : string) (v : value) :
  (forall n s, height v <= n ->
               Stack.build n v s = QueryBuilder.build v s) ->
  forall s,
    height (VDict [(k, v)]) <= n ->
    Stack.clause Stack.build n k v s
    = QueryBuilder.clause QueryBuilder.build k v s.
Proof.
  intros IH s. rewrite height_entry.
  destruct (String.eqb k "$and") eqn:Hand;
    [| destruct (String.eqb k "$or") eqn:Hor;
       [| destruct (QueryBuilder.is_operator k) eqn:Hop;
          [| destruct (isinstance_dict v) eqn:Hdict ]]].
  - intros Hn. unfold Stack.clause, QueryBuilder.clause. rewrite Hand.
    rewrite stack_group_with_eq, ColumnContext.group_with_eq.
    destruct n as [|[|m]]; [lia | lia |].
    rewrite IH by lia. reflexivity.
  - intros Hn. unfold Stack.clause, QueryBuilder.clause. rewrite Hand, Hor.
    rewrite stack_group_with_eq, ColumnContext.group_with_eq.
    destruct n as [|[|m]]; [lia | lia |].
    rewrite IH by lia. reflexivity.
  - intros Hn. unfold Stack.clause, QueryBuilder.clause.
    rewrite Hand, Hor, Hop, stack_op_eq.
    destruct n; [lia | reflexivity].
  - intros Hn. rewrite stack_column_scope_eq, ColumnContext.column_scope_eq
      by assumption.
    destruct (QueryBuilder.current_column s) eqn:Hc; [reflexivity|].
    destruct n as [|[|m]]; [lia | lia |].
    rewrite IH by lia. reflexivity.
  - intros _. now apply scalar_eq.
Qed.

Lemma build_enough :
  forall w n s, height w <= n ->
                Stack.build n w s = QueryBuilder.build w s.
Proof.
  induction w as [ | b | z | f | x | l | d IH ] using value_ind;
    try reflexivity.
  intros n s. rewrite stack_build_dict, QueryBuilderFacts.build_dict.
  generalize (@nil string) as q. revert s.
  induction IH as [|[k v] d Hv _ IHd]; intros s q Hn; [reflexivity|].
  cbn [snd] in Hv. rewrite height_dict in Hn.
  rewrite stack_loop_cons, QueryBuilderFacts.loop_cons.
  rewrite (@clause_enough n k v Hv) by lia.
  destruct (QueryBuilder.clause QueryBuilder.build k v s) as [[c s1]|e];
    [|reflexivity].
  apply IHd. lia.
Qed.

(** A run that returns had frames for the whole filter. *)
Lemma clause_returns (n : nat) (k : string) (v : value) :
  (forall n s r, Stack.build n v s = Ok r -> height v <= n) ->
  forall s r,
    Stack.clause Stack.build n k v s = Ok r ->
    height (VDict [(k, v)]) <= n.
Proof.
  intros IH s r. rewrite height_entry.
  destruct (String.eqb k "$and") eqn:Hand;
    [| destruct (String.eqb k "$or") eqn:Hor;
       [| destruct (QueryBuilder.is_operator k) eqn:Hop;
          [| destruct (isinstance_dict v) eqn:Hdict ]]].
  - unfold Stack.clause. rewrite Hand, stack_group_with_eq.
    destruct n as [|[|m]]; try discriminate.
    destruct (Stack.build m v s) as [r'|e] eqn:Hb; [|discriminate].
    intros _. apply IH in Hb. lia.
  - unfold Stack.clause. rewrite Hand, Hor, stack_group_with_eq.
    destruct n as [|[|m]]; try discriminate.
    destruct (Stack.build m v s) as [r'|e] eqn:Hb; [|discriminate].
    intros _. apply IH in Hb. lia.
  - unfold Stack.clause. rewrite Hand, Hor, Hop, stack_op_eq.
    destruct n; [discriminate | lia].
  - rewrite stack_column_scope_eq by assumption.
    destruct (QueryBuilder.current_column s); [discriminate|].
    destruct n as [|[|m]]; try discriminate.
    destruct (Stack.build m v _) as [r'|e] eqn:Hb; [|discriminate].
    intros _. apply IH in Hb. lia.
  - lia.
Qed.

Lemma build_returns :
  forall w n s r, Stack.build n w s = Ok r -> height w <= n.
Proof.
  induction w as [ | b | z | f | x | l | d IH ] using value_ind;
    try (intros; cbn; lia).
  intros n s r. rewrite stack_build_dict.
  generalize (@nil string) as q. revert s.
  induction IH as [|[k v] d Hv _ IHd]; intros s q H; [cbn; lia|].
  cbn [snd] in Hv. rewrite height_dict. rewrite stack_loop_cons in H.
  destruct (Stack.clause Stack.build n k v s) as [[c s1]|e] eqn:Hc;
    [|discriminate].
  apply (@clause_returns n k v Hv) in Hc. apply IHd in H. lia.
Qed.

(** A run on the bounded stack is that of [QueryBuilder.build], or it
    raises [RecursionError]. *)
Lemma clause_agrees (n : nat) (k : string) (v : value) :
  (forall n s, Stack.build n v s = Err RecursionError
               \/ Stack.build n v s = QueryBuilder.build v s) ->
  forall s,
    Stack.clause Stack.build n k v s = Err RecursionError
    \/ Stack.clause Stack.build n k v s
       = QueryBuilder.clause QueryBuilder.build k v s.
Proof.
  intros IH s.
  destruct (String.eqb k "$and") eqn:Hand;
    [| destruct (String.eqb k "$or") eqn:Hor;
       [| destruct (QueryBuilder.is_operator k) eqn:Hop;
          [| destruct (isinstance_dict v) eqn:Hdict ]]].
  - unfold Stack.clause, QueryBuilder.clause. rewrite Hand.
    rewrite stack_group_with_eq, ColumnContext.group_with_eq.
    destruct n as [|[|m]]; [now left | now left |].
    destruct (IH m s) as [->| ->]; [now left | now right].
  - unfold Stack.clause, QueryBuilder.clause. rewrite Hand, Hor.
    rewrite stack_group_with_eq, ColumnContext.group_with_eq.
    destruct n as [|[|m]]; [now left | now left |].
    destruct (IH m s) as [->| ->]; [now left | now right].
  - unfold Stack.clause, QueryBuilder.clause. rewrite Hand, Hor, Hop, stack_op_eq.
    destruct n; [now left | now right].
  - rewrite stack_column_scope_eq, ColumnContext.column_scope_eq by assumption.
    destruct (QueryBuilder.current_column s) eqn:Hc; [now right|].
    destruct n as [|[|m]]; [now left | now left |].
    destruct (IH m {| QueryBuilder.params := QueryBuilder.params s;
                      QueryBuilder.current_column := Some k |})
      as [->| ->]; [now left | now right].
  - right. now apply scalar_eq.
Qed.

Lemma build_agrees :
  forall w n s,
    Stack.build n w s = Err RecursionError
    \/ Stack.build n w s = QueryBuilder.build w s.
Proof.
  induction w as [ | b | z | f | x | l | d IH ] using value_ind;
    try (intros; right; reflexivity).
  intros n s. rewrite stack_build_dict, QueryBuilderFacts.build_dict.
  generalize (@nil string) as q. revert s.
  induction IH as [|[k v] d Hv _ IHd]; intros s q; [now right|].
  cbn [snd] in Hv. rewrite stack_loop_cons, QueryBuilderFacts.loop_cons.
  destruct (@clause_agrees n k v Hv s) as [->| ->]; [now left|].
  destruct (QueryBuilder.clause QueryBuilder.build k v s) as [[c s1]|e];
    [apply IHd | now right].
Qed.

(** [build_query] on an object that is not empty. *)
Lemma stack_build_query_dict (n : nat) (kv : string * value)
      (d : list (string * value)) :
  Stack.build_query n (VDict (kv :: d)) =
  match n with
  | S (S m) =>
      match Stack.build m (VDict (kv :: d)) QueryBuilder.init with
      | Ok (q, s) => Ok (join " AND " q, QueryBuilder.params s)
      | Err e => Err e
      end
  | _ => Err RecursionError
  end.
Proof.
  unfold Stack.build_query, Stack.group. cbn [len List.length].
  destruct n as [|[|m]]; try reflexivity.
  unfold bind at 1. cbn [Stack.call]. unfold ret at 1.
  rewrite stack_group_with_eq.
  destruct (Stack.build m (VDict (kv :: d)) QueryBuilder.init)
    as [[q s]|e]; reflexivity.
Qed.

(** [build_query] on a value that is no object takes no frame. *)
Lemma stack_build_query_not_dict (n : nat) (w : value) :
  isinstance_dict w = false ->
  Stack.build_query n w =
  match w with
  | VNone => Ok ("", [])
  | VStr s => if Nat.eqb (String.length s) 0 then Ok ("", [])
              else match n with
                   | S (S _) => Err AttributeError
                   | _ => Err RecursionError
                   end
  | VList l => if Nat.eqb (List.length l) 0 then Ok ("", [])
               else match n with
                    | S (S _) => Err AttributeError
                    | _ => Err RecursionError
                    end
  | _ => Err TypeError
  end.
Proof.
  destruct w as [ | b | z | f | x | l | d ]; intros H;
    try reflexivity; try discriminate H.
  - destruct x; [reflexivity|]. now destruct n as [|[|m]].
  - destruct l; [reflexivity|]. now destruct n as [|[|m]].
Qed.

End StackFacts.

(** ** The assertions, in the order of the run *)

Module Encounter.

Lemma encounters_fails :
  forall n s w, encounters n s w -> Stack.build n w s = Err AssertionError.
Proof.
  induction 1 as [n s pre k v post q s1 Hpre Hop Hcol Hn
                 |n s pre k v post q s1 c Hpre Hand Hor Hop Hdict Hcol
                 |n s pre k v post q s1 Hpre Hk _ IH
                 |n s pre k v post q s1 Hpre Hand Hor Hop Hdict Hcol _ IH];
    rewrite StackFacts.build_app, Hpre, StackFacts.stack_loop_cons.
  - destruct (StackFacts.is_operator_not_logical k Hop) as [Hand Hor].
    unfold Stack.clause. rewrite Hand, Hor, Hop, StackFacts.stack_op_eq.
    destruct n; [lia|]. now rewrite ColumnContext.op_eq, Hcol.
  - rewrite StackFacts.stack_column_scope_eq by assumption. now rewrite Hcol.
  - unfold Stack.clause.
    destruct (String.eqb k "$and") eqn:Hand.
    + rewrite StackFacts.stack_group_with_eq. cbn [Nat.add]. now rewrite IH.
    + destruct Hk as [Hk|Hk]; [discriminate Hk|].
      rewrite Hk, StackFacts.stack_group_with_eq. cbn [Nat.add]. now rewrite IH.
  - rewrite StackFacts.stack_column_scope_eq by assumption.
    rewrite Hcol. cbn [Nat.add]. now rewrite IH.
Qed.

Lemma clause_fails (n : nat) (s : QueryBuilder.t)
      (pre : list (string * value)) (k : string) (v : value)
      (post : list (string * value)) (q : list string)
      (s1 : QueryBuilder.t) :
  (forall n s, Stack.build n v s = Err AssertionError -> encounters n s v) ->
  Stack.build n (VDict pre) s = Ok (q, s1) ->
  Stack.clause Stack.build n k v s1 = Err AssertionError ->
  encounters n s (VDict (pre ++ (k, v) :: post)).
Proof.
  intros IH Hpre.
  destruct (String.eqb k "$and") eqn:Hand;
    [| destruct (String.eqb k "$or") eqn:Hor;
       [| destruct (QueryBuilder.is_operator k) eqn:Hop;
          [| destruct (isinstance_dict v) eqn:Hdict ]]].
  - unfold Stack.clause. rewrite Hand, StackFacts.stack_group_with_eq.
    destruct n as [|[|m]]; try discriminate.
    destruct (Stack.build m v s1) as [[q' s']|e] eqn:Hb; [discriminate|].
    intros H. injection H as ->.
    eapply within_group; [exact Hpre | now left | now apply IH].
  - unfold Stack.clause. rewrite Hand, Hor, StackFacts.stack_group_with_eq.
    destruct n as [|[|m]]; try discriminate.
    destruct (Stack.build m v s1) as [[q' s']|e] eqn:Hb; [discriminate|].
    intros H. injection H as ->.
    eapply within_group; [exact Hpre | now right | now apply IH].
  - unfold Stack.clause. rewrite Hand, Hor, Hop, StackFacts.stack_op_eq.
    destruct n; [discriminate|]. rewrite ColumnContext.op_eq.
    destruct (QueryBuilder.current_column s1) eqn:Hcol.
    + destruct (QueryBuilder.lookup k QueryBuilder.operators); discriminate.
    + intros _. eapply operator_without_column; eauto. lia.
  - rewrite StackFacts.stack_column_scope_eq by assumption.
    destruct (QueryBuilder.current_column s1) as [c|] eqn:Hcol.
    + intros _. eapply column_within_column; eauto.
    + destruct n as [|[|m]]; try discriminate.
      destruct (Stack.build m v _) as [[q' s']|e] eqn:Hb; [discriminate|].
      intros H. injection H as ->.
      eapply within_column_scope; eauto.
  - rewrite StackFacts.scalar_eq by assumption.
    unfold QueryBuilder.clause. rewrite Hand, Hor, Hop, Hdict.
    discriminate.
Qed.

Lemma fails_encounters :
  forall w n s, Stack.build n w s = Err AssertionError -> encounters n s w.
Proof.
  induction w as [ | b | z | f | x | l | d IH ] using value_ind;
    try discriminate.
  intros n s. rewrite StackFacts.stack_build_dict.
  change d with ([] ++ d)%list at 2.
  assert (Hpre : Stack.build n (VDict []) s = Ok ([], s)) by reflexivity.
  revert Hpre. generalize (@nil string) as q. generalize s at 2 3 as s1.
  generalize (@nil (string * value)) as pre.
  induction IH as [|[k v] d Hv _ IHd]; intros pre s1 q Hpre H;
    [discriminate H|].
  cbn [snd] in Hv. rewrite StackFacts.stack_loop_cons in H.
  destruct (Stack.clause Stack.build n k v s1) as [[c s2]|e] eqn:Hc.
  - replace (pre ++ (k, v) :: d)%list with ((pre ++ [(k, v)]) ++ d)%list
      by now rewrite <- app_assoc.
    apply IHd with (s1 := s2) (q := (q ++ [c])%list); [|exact H].
    now rewrite StackFacts.build_app, Hpre, StackFacts.stack_loop_cons, Hc.
  - injection H as ->. now apply clause_fails with (q := q) (s1 := s1).
Qed.

Lemma encounters_not_empty (n : nat) (s : QueryBuilder.t) :
  ~ encounters n s (VDict []).
Proof.
  intros H. remember (VDict []) as w eqn:E.
  destruct H; injection E as E; now destruct pre.
Qed.

Lemma encounters_dict (n : nat) (s : QueryBuilder.t) (w : value) :
  encounters n s w -> isinstance_dict w = true.
Proof. now destruct 1. Qed.

End Encounter.

(** C5, as the code has it: on a call stack with [frames] frames left, the
    run of [build] raises [AssertionError] exactly when it meets one of
    the two situations of [encounters], after compiling the entries before
    it: a comparison operator with no column context, or a key that is
    neither [$and]/[$or] nor an operator, with an object value, inside a
    column context.  So does [build_query], whose body calls [group] and
    [build] first.  An operator as the first key of a filter raises
    whatever follows it; and [{"a": {"b": {"c": 1}}}] raises, on every
    stack with four frames and on the stack that is never full. *)
Theorem assertion_faults :
  (forall (frames : nat) (s : QueryBuilder.t) (w : value),
      Stack.build frames w s = Err AssertionError <-> encounters frames s w) /\
  (forall (frames : nat) (w : value),
      Stack.build_query frames w = Err AssertionError <->
      exists m, frames = 2 + m /\ encounters m QueryBuilder.init w) /\
  (forall (frames : nat) (k : string) (v : value)
          (post : list (string * value)),
      QueryBuilder.is_operator k = true ->
      Stack.build_query (3 + frames) (VDict ((k, v) :: post))
      = Err AssertionError) /\
  (forall frames : nat,
      Stack.build_query (4 + frames)
        (VDict [("a", VDict [("b", VDict [("c", VInt 1)])])])
      = Err AssertionError) /\
  QueryBuilder.build_query
    (VDict [("a", VDict [("b", VDict [("c", VInt 1)])])])
  = Err AssertionError.
Proof.
  assert (Hiff : forall n s w,
             Stack.build n w s = Err AssertionError <-> encounters n s w).
  { intros n s w. split;
      [apply Encounter.fails_encounters | apply Encounter.encounters_fails]. }
  split; [exact Hiff|]. split; [|split; [|split; reflexivity]].
  - intros n w. destruct (isinstance_dict w) eqn:Hw.
    + destruct w as [ | | | | | | [|kv d] ]; try discriminate Hw.
      * split; [discriminate|]. intros [m [_ H]].
        now apply Encounter.encounters_not_empty in H.
      * rewrite StackFacts.stack_build_query_dict.
        destruct n as [|[|m]].
        -- split; [discriminate | intros [m [E _]]; lia].
        -- split; [discriminate | intros [m [E _]]; lia].
        -- split.
           ++ intros H. exists m. split; [reflexivity|]. apply Hiff.
              destruct (Stack.build m (VDict (kv :: d)) QueryBuilder.init)
                as [[q s]|e]; [discriminate | now injection H as ->].
           ++ intros [m' [E H]]. assert (m' = m) by lia. subst m'.
              apply Hiff in H. now rewrite H.
    + rewrite (StackFacts.stack_build_query_not_dict _ _ Hw). split.
      * destruct w as [ | b | z | f | x | l | d ]; try discriminate.
        -- destruct (Nat.eqb (String.length x) 0); [discriminate|].
           destruct n as [|[|m]]; discriminate.
        -- destruct (Nat.eqb (List.length l) 0); [discriminate|].
           destruct n as [|[|m]]; discriminate.
      * intros [m [_ H]]. apply Encounter.encounters_dict in H. congruence.
  - intros n k v post Hop. rewrite StackFacts.stack_build_query_dict.
    cbn [Nat.add].
    assert (H : encounters (S n) QueryBuilder.init
                           (VDict ([] ++ (k, v) :: post)))
      by (apply (@operator_without_column (S n) QueryBuilder.init [] k v post
                   [] QueryBuilder.init);
            [reflexivity | exact Hop | reflexivity | lia]).
    apply Hiff in H. cbn [app] in H. now rewrite H.
Qed.

Lemma assertion_faults_witness :
  QueryBuilder.is_operator "$gt" = true /\
  Stack.build_query 3 (VDict [("$gt", VInt 1); ("$and", VList [VInt 1])])
  = Err AssertionError.
Proof.
  split; [reflexivity|].
  apply (proj1 (proj2 (proj2 assertion_faults)) 0 "$gt" (VInt 1)
           [("$and", VList [VInt 1])]).
  reflexivity.
Defined.

(** ** The bounded stack and the stack that is never full *)

Module Bounded.

Lemma never_recursion (w : value) (s : QueryBuilder.t) :
  QueryBuilder.build w s <> Err RecursionError.
Proof.
  rewrite Compile.build_runs.
  pose proof (Acceptance.compile_verdict w (QueryBuilder.current_column s))
    as Hv. unfold verdict in Hv.
  destruct (compile (QueryBuilder.current_column s) w) as [q|e];
    [discriminate|].
  intros H. injection H as ->. exact Hv.
Qed.

(** The three outcomes of [build] on a stack with frames for the filter. *)
Lemma build_verdict (w : value) (s : QueryBuilder.t) :
  match QueryBuilder.build w s with
  | Ok _ => grouped w = true
            /\ violates (QueryBuilder.current_column s) w = false
  | Err AssertionError => violates (QueryBuilder.current_column s) w = true
  | Err AttributeError => grouped w = false
  | Err _ => False
  end.
Proof.
  rewrite Compile.build_runs.
  pose proof (Acceptance.compile_verdict w (QueryBuilder.current_column s))
    as Hv. unfold verdict in Hv.
  now destruct (compile (QueryBuilder.current_column s) w) as [q|e].
Qed.

Lemma build_query_agrees (n : nat) (w : value) :
  Stack.build_query n w = Err RecursionError
  \/ Stack.build_query n w = QueryBuilder.build_query w.
Proof.
  destruct (isinstance_dict w) eqn:Hw.
  - destruct w as [ | | | | | | [|kv d] ]; try discriminate Hw;
      [now right|].
    rewrite StackFacts.stack_build_query_dict, Faults.build_query_dict.
    destruct n as [|[|m]]; [now left | now left |].
    destruct (StackFacts.build_agrees (VDict (kv :: d)) m QueryBuilder.init)
      as [->| ->]; [now left | now right].
  - rewrite (StackFacts.stack_build_query_not_dict _ _ Hw),
      (Compile.build_query_not_dict _ Hw).
    destruct w as [ | b | z | f | x | l | d ]; try (now right).
    + destruct (Nat.eqb (String.length x) 0); [now right|].
      destruct n as [|[|m]]; [now left | now left | now right].
    + destruct (Nat.eqb (List.length l) 0); [now right|].
      destruct n as [|[|m]]; [now left | now left | now right].
Qed.

Lemma build_query_enough (n : nat) (w : value) :
  height w + 2 <= n ->
  Stack.build_query n w = QueryBuilder.build_query w.
Proof.
  intros Hn. destruct (isinstance_dict w) eqn:Hw.
  - destruct w as [ | | | | | | [|kv d] ]; try discriminate Hw;
      [reflexivity|].
    rewrite StackFacts.stack_build_query_dict, Faults.build_query_dict.
    destruct n as [|[|m]]; [lia | lia |].
    rewrite StackFacts.build_enough by lia. reflexivity.
  - rewrite (StackFacts.stack_build_query_not_dict _ _ Hw),
      (Compile.build_query_not_dict _ Hw).
    destruct w as [ | b | z | f | x | l | d ]; try reflexivity.
    + destruct (Nat.eqb (String.length x) 0); [reflexivity|].
      destruct n as [|[|m]]; [cbn in Hn; lia | cbn in Hn; lia | reflexivity].
    + destruct (Nat.eqb (List.length l) 0); [reflexivity|].
      destruct n as [|[|m]]; [cbn in Hn; lia | cbn in Hn; lia | reflexivity].
Qed.

End Bounded.

(** X2: on a call stack with [frames] frames left, [build_query] returns
    normally exactly on [None], on an empty str, list or object, and on an
    object in which every group is an object, which holds neither of the
    two faults of [violates], and whose nesting the stack has the frames
    for: two for every level of group or column scope, one for an
    operator, and two for the first calls of [group] and [build]. *)
Theorem build_query_returns_iff :
  forall (frames : nat) (w : value),
    (exists q ps, Stack.build_query frames w = Ok (q, ps)) <->
    (w = VNone \/ len w = Ok 0 \/
     (grouped w = true /\ violates None w = false
      /\ height w + 2 <= frames)).
Proof.
  intros n w. destruct (isinstance_dict w) eqn:Hw.
  - destruct w as [ | | | | | | [|kv d] ]; try discriminate Hw.
    + split; [intros _; right; left; reflexivity | intros _; now eexists _, _].
    + split.
      * intros [q [ps H]]. right; right.
        rewrite StackFacts.stack_build_query_dict in H.
        destruct n as [|[|m]]; try discriminate H.
        destruct (Stack.build m (VDict (kv :: d)) QueryBuilder.init)
          as [[q' s]|e] eqn:Hb; [|discriminate H].
        pose proof (StackFacts.build_returns _ _ _ Hb) as Hh.
        destruct (StackFacts.build_agrees (VDict (kv :: d)) m QueryBuilder.init)
          as [E|E]; [congruence|].
        pose proof (Bounded.build_verdict (VDict (kv :: d)) QueryBuilder.init)
          as Hv.
        rewrite <- E, Hb in Hv. destruct Hv as [Hg Hvi].
        repeat split; [exact Hg | exact Hvi | lia].
      * intros [H|[H|[Hg [Hvi Hh]]]]; try discriminate H.
        rewrite (Bounded.build_query_enough _ Hh), Faults.build_query_dict.
        pose proof (Bounded.build_verdict (VDict (kv :: d)) QueryBuilder.init)
          as Hv.
        destruct (QueryBuilder.build (VDict (kv :: d)) QueryBuilder.init)
          as [[q s]|e]; [now eexists _, _|].
        cbn [QueryBuilder.current_column QueryBuilder.init] in Hv.
        destruct e; try contradiction; congruence.
  - rewrite (StackFacts.stack_build_query_not_dict _ _ Hw).
    destruct w as [ | b | z | f | x | l | d ]; try discriminate Hw.
    + split; [intros _; now left | intros _; now eexists _, _].
    + split; [intros [q [ps H]]; discriminate H|].
      intros [H|[H|[H _]]]; discriminate H.
    + split; [intros [q [ps H]]; discriminate H|].
      intros [H|[H|[H _]]]; discriminate H.
    + split; [intros [q [ps H]]; discriminate H|].
      intros [H|[H|[H _]]]; discriminate H.
    + destruct x as [|c x]; cbn [String.length Nat.eqb].
      * split; [intros _; right; now left | intros _; now eexists _, _].
      * split; [intros [q [ps H]]; destruct n as [|[|m]]; discriminate H|].
        intros [H|[H|[H _]]]; discriminate H.
    + destruct l as [|c l]; cbn [List.length Nat.eqb].
      * split; [intros _; right; now left | intros _; now eexists _, _].
      * split; [intros [q [ps H]]; destruct n as [|[|m]]; discriminate H|].
        intros [H|[H|[H _]]]; discriminate H.
Qed.

(** X3: on a call stack with [frames] frames left, the exceptions of
    [build_query] are [TypeError], raised exactly on a bool, an int or a
    float (a value without a length), [AttributeError], [AssertionError]
    and [RecursionError]; [RecursionError] is raised only when the stack
    has not the frames for the nesting of the filter; the lookup of an
    operator's symbol never raises [KeyError]. *)
Theorem build_query_exceptions :
  forall (frames : nat) (w : value) (e : exn),
    Stack.build_query frames w = Err e ->
    (e = TypeError \/ e = AttributeError \/ e = AssertionError
     \/ e = RecursionError) /\
    (e = TypeError <-> len w = Err TypeError) /\
    (e = RecursionError -> frames < height w + 2).
Proof.
  intros n w e He.
  assert (Hrec : e = RecursionError -> n < height w + 2).
  { intros ->. destruct (Nat.lt_ge_cases n (height w + 2)) as [H|H];
      [exact H|].
    rewrite (Bounded.build_query_enough _ H) in He.
    destruct (isinstance_dict w) eqn:Hw.
    - destruct w as [ | | | | | | [|kv d] ]; try discriminate Hw;
        [discriminate He|].
      rewrite Faults.build_query_dict in He.
      destruct (QueryBuilder.build (VDict (kv :: d)) QueryBuilder.init)
        as [[q s]|e'] eqn:Hb; [discriminate He|].
      injection He as ->. now apply Bounded.never_recursion in Hb.
    - rewrite (Compile.build_query_not_dict _ Hw) in He.
      destruct w as [ | b | z | f | x | l | d ]; try discriminate He.
      + destruct (Nat.eqb (String.length x) 0); discriminate He.
      + destruct (Nat.eqb (List.length l) 0); discriminate He. }
  split; [|split; [|exact Hrec]].
  - destruct (Bounded.build_query_agrees n w) as [E|E].
    + rewrite E in He. injection He as <-. tauto.
    + rewrite E in He. clear E Hrec.
      destruct (isinstance_dict w) eqn:Hw.
      * destruct w as [ | | | | | | [|kv d] ]; try discriminate Hw;
          [discriminate He|].
        rewrite Faults.build_query_dict in He.
        pose proof (Bounded.build_verdict (VDict (kv :: d)) QueryBuilder.init)
          as Hv.
        destruct (QueryBuilder.build (VDict (kv :: d)) QueryBuilder.init)
          as [[q s]|e']; [discriminate He|].
        injection He as <-. destruct e'; try contradiction; tauto.
      * rewrite (Compile.build_query_not_dict _ Hw) in He.
        destruct w as [ | b | z | f | x | l | d ]; try discriminate He;
          try (injection He as <-; tauto).
        -- destruct (Nat.eqb (String.length x) 0); [discriminate He|].
           injection He as <-. tauto.
        -- destruct (Nat.eqb (List.length l) 0); [discriminate He|].
           injection He as <-. tauto.
  - destruct (isinstance_dict w) eqn:Hw.
    + destruct w as [ | | | | | | [|kv d] ]; try discriminate Hw;
        [discriminate He|].
      rewrite StackFacts.stack_build_query_dict in He.
      split; [|discriminate]. intros ->.
      destruct n as [|[|m]]; try discriminate He.
      destruct (StackFacts.build_agrees (VDict (kv :: d)) m QueryBuilder.init)
        as [E|E]; rewrite E in He; [discriminate He|].
      pose proof (Bounded.build_verdict (VDict (kv :: d)) QueryBuilder.init)
        as Hv.
      destruct (QueryBuilder.build (VDict (kv :: d)) QueryBuilder.init)
        as [[q s]|e']; [discriminate He|].
      injection He as ->. contradiction.
    + rewrite (StackFacts.stack_build_query_not_dict _ _ Hw) in He.
      destruct w as [ | b | z | f | x | l | d ]; try discriminate He;
        try discriminate Hw;
        try (injection He as <-; split; reflexivity).
      * destruct (Nat.eqb (String.length x) 0); [discriminate He|].
        split; [|discriminate]. intros ->.
        destruct n as [|[|m]]; discriminate He.
      * destruct (Nat.eqb (List.length l) 0); [discriminate He|].
        split; [|discriminate]. intros ->.
        destruct n as [|[|m]]; discriminate He.
Qed.

Lemma build_query_exceptions_witness :
  let deep := VDict [("$and", VDict [("$or", VDict [("a", VInt 1)])])] in
  Stack.build_query 5 deep = Err RecursionError /\
  (RecursionError = TypeError \/ RecursionError = AttributeError
   \/ RecursionError = AssertionError \/ RecursionError = RecursionError) /\
  (RecursionError = TypeError <-> len deep = Err TypeError) /\
  (RecursionError = RecursionError -> 5 < height deep + 2).
Proof.
  intros deep. split; [reflexivity|].
  apply (@build_query_exceptions 5 deep RecursionError). reflexivity.
Defined.

(** X15: the builder on a bounded call stack against [QueryBuilder.build],
    the builder on a stack that is never full.  With frames for the
    nesting of the filter the two give the same result, for [build] and
    for [build_query]; with fewer, the bounded one gives the same result
    or raises [RecursionError]; a run that returns had the frames for the
    whole filter; and [QueryBuilder.build] never raises
    [RecursionError]. *)
Theorem bounded_stack_agrees :
  (forall (frames : nat) (w : value) (s : QueryBuilder.t),
      height w <= frames ->
      Stack.build frames w s = QueryBuilder.build w s) /\
  (forall (frames : nat) (w : value),
      height w + 2 <= frames ->
      Stack.build_query frames w = QueryBuilder.build_query w) /\
  (forall (frames : nat) (w : value) (s : QueryBuilder.t),
      Stack.build frames w s = Err RecursionError
      \/ Stack.build frames w s = QueryBuilder.build w s) /\
  (forall (frames : nat) (w : value),
      Stack.build_query frames w = Err RecursionError
      \/ Stack.build_query frames w = QueryBuilder.build_query w) /\
  (forall (frames : nat) (w : value) (s : QueryBuilder.t) r,
      Stack.build frames w s = Ok r -> height w <= frames) /\
  (forall (w : value) (s : QueryBuilder.t),
      QueryBuilder.build w s <> Err RecursionError).
Proof.
  repeat split.
  - intros n w s. apply StackFacts.build_enough.
  - intros n w. apply Bounded.build_query_enough.
  - intros n w s. apply StackFacts.build_agrees.
  - intros n w. apply Bounded.build_query_agrees.
  - intros n w s r. apply StackFacts.build_returns.
  - intros w s. apply Bounded.never_recursion.
Qed.

Lemma bounded_stack_agrees_witness :
  let w := VDict [("$or", VDict [("a", VDict [("$lt", VInt 1)])])] in
  height w <= 5 /\
  Stack.build 5 w QueryBuilder.init = QueryBuilder.build w QueryBuilder.init.
Proof.
  intros w. split; [vm_compute; lia|].
  apply (proj1 bounded_stack_agrees 5 w QueryBuilder.init).
  vm_compute; lia.
Defined.

(** ** The double quotes of the column names *)

(** C6: [{"age": {"$gte": 18, "$lt": 65}}] compiles to
    ["age" >= %s AND "age" < %s] with the parameters 18, 65; and under a
    column [c] each operator key gives the clause ["c" sym %s] with its
    SQL symbol [sym], binding its value as the next parameter.  The
    column name stands between two double quotes, the character of code
    34, written ["034"] below. *)
Theorem comparison_operators :
  QueryBuilder.build_query
    (VDict [("age", VDict [("$gte", VInt 18); ("$lt", VInt 65)])])
  = Ok (String "034" ("age" ++ String "034" (" >= %s AND "
          ++ String "034" ("age" ++ String "034" " < %s"))),
        [VInt 18; VInt 65]) /\
  Forall (fun ks : string * string =>
            forall (c : string) (v : value) (ps : list value),
              QueryBuilder.op (fst ks) v
                {| QueryBuilder.params := ps;
                   QueryBuilder.current_column := Some c |}
              = Ok (String "034" (c ++ String "034" (" " ++ snd ks ++ " %s")),
                    {| QueryBuilder.params := (ps ++ [v])%list;
                       QueryBuilder.current_column := Some c |}))
         [ ("$gt", ">"); ("$gte", ">="); ("$lt", "<"); ("$lte", "<=");
           ("$eq", "=") ].
Proof.
  split; [reflexivity|].
  repeat constructor; intros c v ps; cbn [fst snd];
    rewrite <- (Placeholders.quoted_app c); reflexivity.
Qed.

(** C8: for a sequence of rows [r0 :: rs] the column list is the keys of
    [sorted r0], each between two double quotes (the character of code
    34, written ["034"] below), joined with commas, whatever the later
    rows hold; the values clause has one placeholder tuple per row, of the
    size of that row; the parameters are the values of each row in the
    order of its sorted items, one row after the other, as many as the
    rows have keys.  [sorted] permutes the items and orders them by key.
    The rows [{"a":1,"b":2}], [{"a":3,"b":4}] give the columns ["a","b"],
    the clause [(%s,%s),(%s,%s)] and the parameters 1, 2, 3, 4. *)
Theorem insert_columns_and_params :
  (forall (r0 : list (string * value)) (rs : list (list (string * value))),
      exists builder,
        InsertBuilder.add_all (map VDict (r0 :: rs)) InsertBuilder.init
        = Ok (tt, builder) /\
        InsertBuilder.names builder
        = Ok (join "," (map (fun k => String "034" (k ++ String "034" ""))
                            (map fst (sorted r0)))) /\
        InsertBuilder.values builder
        = join "," (map (fun r => placeholder_tuple (List.length r))
                        (r0 :: rs)) /\
        InsertBuilder.params builder
        = List.concat (map (fun r => map snd (sorted r)) (r0 :: rs))) /\
  (forall (table : string) (r0 : list (string * value))
          (rs : list (list (string * value))),
      insert table (VList (map VDict (r0 :: rs)))
      = Ok ("INSERT INTO " ++ table
              ++ " ("
              ++ join "," (map (fun k => String "034" (k ++ String "034" ""))
                               (map fst (sorted r0)))
              ++ ") "
              ++ "VALUES "
              ++ join "," (map (fun r => placeholder_tuple (List.length r))
                               (r0 :: rs))
              ++ " RETURNING *",
            List.concat (map (fun r => map snd (sorted r)) (r0 :: rs)))) /\
  (forall rows : list (list (string * value)),
      List.length (List.concat (map (fun r => map snd (sorted r)) rows))
      = list_sum (map (@List.length _) rows)) /\
  (forall r : list (string * value),
      Permutation (sorted r) r /\ Sorted key_le (sorted r)) /\
  insert "t" (VList [VDict [("a", VInt 1); ("b", VInt 2)];
                         VDict [("a", VInt 3); ("b", VInt 4)]])
  = Ok ("INSERT INTO t ("
          ++ String "034" ("a" ++ String "034" (","
          ++ String "034" ("b" ++ String "034"
               ") VALUES (%s,%s),(%s,%s) RETURNING *"))),
        [VInt 1; VInt 2; VInt 3; VInt 4]).
Proof.
  split; [|split; [|split; [|split]]].
  - intros r0 rs. eexists. split; [apply InsertFacts.add_all_rows|].
    unfold InsertBuilder.names, InsertBuilder.values.
    cbn [InsertBuilder.first_item InsertBuilder.value_strs
         InsertBuilder.params InsertBuilder.init app].
    now rewrite map_map.
  - intros table r0 rs. unfold insert.
    rewrite InsertFacts.add_all_rows.
    unfold InsertBuilder.names, InsertBuilder.values.
    cbn [InsertBuilder.first_item InsertBuilder.value_strs
         InsertBuilder.params InsertBuilder.init app].
    now rewrite map_map.
  - apply InsertFacts.length_params.
  - intros r. split;
      [apply InsertFacts.sorted_perm | apply InsertFacts.sorted_sorted].
  - reflexivity.
Qed.

(** X7: [select] checks its columns before anything else.  When [columns]
    is neither absent nor a list, or one of the columns is not a valid
    identifier, it raises [AssertionError] whatever the table and the
    filter are; and when it returns, every column is a valid identifier
    and the SQL text starts with the columns, each between two double
    quotes (the character of code 34, written ["034"] below), joined with
    commas.  The columns [a], [b] of the table [t] give
    [SELECT "a","b" FROM t]. *)
Theorem select_checks_columns :
  (forall (table : string) (w : value) (cols : list value),
      Exists (fun c => check_valid_sql_ident c <> Ok true) cols ->
      select table w (VList cols) = Err AssertionError) /\
  (forall (table : string) (w columns : value),
      columns <> VNone -> (forall l, columns <> VList l) ->
      select table w columns = Err AssertionError) /\
  (forall (table : string) (w : value) (cols : list value)
          (sql : string) (ps : list value),
      select table w (VList cols) = Ok (sql, ps) ->
      exists names rest,
        cols = map VStr names /\
        Forall (fun n => check_valid_sql_ident (VStr n) = Ok true) names /\
        sql = "SELECT "
                ++ join "," (map (fun n => String "034" (n ++ String "034" ""))
                                 names)
                ++ " FROM " ++ table ++ rest) /\
  select "t" VNone (VList [VStr "a"; VStr "b"])
  = Ok ("SELECT " ++ String "034" ("a" ++ String "034" (","
          ++ String "034" ("b" ++ String "034" " FROM t"))),
        []).
Proof.
  split; [|split; [|split]].
  - intros table w cols H. unfold select, select_columns_str.
    now rewrite (Identifiers.select_columns_invalid H).
  - intros table w columns Hn Hl.
    destruct columns as [ | b | z | f | x | l | d ]; try reflexivity.
    + contradiction.
    + now destruct (Hl l).
  - intros table w cols sql ps. unfold select, select_columns_str.
    destruct (select_columns cols) as [l|e] eqn:Hl; [|discriminate].
    destruct (Identifiers.select_columns_valid _ Hl) as [names [-> [-> Hn]]].
    destruct (QueryBuilder.build_query w) as [[q ps']|e]; [|discriminate].
    intros H. injection H as <- <-.
    exists names. destruct (Nat.ltb 0 (List.length ps')).
    + exists (" WHERE (" ++ q ++ ")"). repeat split; [exact Hn|].
      now rewrite !Placeholders.append_assoc.
    + exists "". repeat split; [exact Hn|].
      now rewrite !Placeholders.append_nil_r.
  - reflexivity.
Qed.
